(** * Shairport Sync media player: a shallow embedding of [media_player.py]

    The entity [ShairportSyncMediaPlayer] mirrors the state of an AirPlay
    receiver from MQTT messages and drives its volume with relative
    commands.  Python floats are idealised as real numbers: [10 ** x] is
    [Rpower 10 x] as long as that is within the range of a float and an
    [OverflowError] beyond it, [math.log10] is [ln x / ln 10], and
    comparisons are decided by [Rle_dec] and [Rlt_dec].  Rounding,
    infinities and NaN are outside the model; the theorems about the
    power keep a margin to the largest float, so that they do not rest
    on how a value next to it is rounded. *)

From Stdlib Require Import Reals Lra Lia List String Ascii Bool Arith ZArith.
From Stdlib Require Import Strings.Byte.
Import ListNotations.

Local Open Scope string_scope.
Local Open Scope R_scope.

(** ** Python values used by the entity *)

Module Py.

(** Exceptions the modelled code can raise.  All of them derive from
    [Exception], so [except Exception] catches every one. *)
Inductive exn : Type :=
| ValueError
| TypeError
| IndexError
| UnicodeDecodeError
| OverflowError
| PublishError.

(** [s.split(sep)] for a one-character separator: never returns the
    empty list, [''.split(',')] is [['']]. *)
Fixpoint split (sep : ascii) (s : string) : list string :=
  match s with
  | EmptyString => [EmptyString]
  | String c rest =>
      if Ascii.eqb c sep then EmptyString :: split sep rest
      else match split sep rest with
           | [] => [String c EmptyString]
           | p :: ps => String c p :: ps
           end
  end.

(** [min(a, b)]: the first argument unless the second is smaller. *)
Definition min (a b : R) : R := if Rlt_dec b a then b else a.

(** [max(a, b)]: the first argument unless the second is greater. *)
Definition max (a b : R) : R := if Rgt_dec b a then b else a.

(** [sys.float_info.max], the largest finite float:
    [(2 - 2^-52) * 2^1023]. *)
Definition float_max : R := 2 ^ 1024 - 2 ^ 971.

(** [10 ** x] for a float exponent: an [OverflowError] (numerical result
    out of range) when the power is beyond the largest float.  A power
    too small for a float is rounded to zero without an error. *)
Definition pow10 (x : R) : exn + R :=
  if Rle_dec (Rpower 10 x) float_max then inr (Rpower 10 x)
  else inl OverflowError.

(** [math.log10(x)]: a [ValueError] (math domain error) outside the
    positive numbers. *)
Definition log10 (x : R) : exn + R :=
  if Rlt_dec 0 x then inr (ln x / ln 10) else inl ValueError.

End Py.

(** ** Constants of the host platform and of [const.py] *)

Inductive MediaPlayerState : Type := IDLE | PLAYING | PAUSED.

Definition MediaPlayerState_eqb (a b : MediaPlayerState) : bool :=
  match a, b with
  | IDLE, IDLE | PLAYING, PLAYING | PAUSED, PAUSED => true
  | _, _ => false
  end.

(** Modelled from the spec: the [Command] enumeration of [const.py], the
    fixed vocabulary published on the remote topic (play, pause, stop,
    skip-next, skip-previous, volume-up, volume-down). *)
Inductive Command : Type :=
| PLAY | PAUSE | STOP | SKIP_NEXT | SKIP_PREVIOUS | VOLUME_UP | VOLUME_DOWN.

(** Modelled from the spec: the [TopLevelTopic] enumeration of [const.py],
    the topic suffixes under the configured base topic. *)
Inductive TopLevelTopic : Type :=
| PLAY_START | PLAY_RESUME | PLAY_END | PLAY_FLUSH | ACTIVE_END
| ARTIST | ALBUM | TITLE | COVER | REMOTE.

(** A subscribed topic: a top-level topic, or one of the two volume
    topics [f"{base}/ssnc/pvol"] and [f"{base}/volume"]. *)
Inductive Topic : Type :=
| TopLevel (t : TopLevelTopic)
| SsncPvol
| VolumeFallback.

Definition TopLevelTopic_eqb (a b : TopLevelTopic) : bool :=
  match a, b with
  | PLAY_START, PLAY_START | PLAY_RESUME, PLAY_RESUME | PLAY_END, PLAY_END
  | PLAY_FLUSH, PLAY_FLUSH | ACTIVE_END, ACTIVE_END | ARTIST, ARTIST
  | ALBUM, ALBUM | TITLE, TITLE | COVER, COVER | REMOTE, REMOTE => true
  | _, _ => false
  end.

Definition Topic_eqb (a b : Topic) : bool :=
  match a, b with
  | TopLevel x, TopLevel y => TopLevelTopic_eqb x y
  | SsncPvol, SsncPvol | VolumeFallback, VolumeFallback => true
  | _, _ => false
  end.

(** An MQTT payload: text on a subscription with an encoding, raw bytes
    on one without. *)
Inductive Payload : Type :=
| PStr (s : string)
| PBytes (b : list byte).

Record ReceiveMessage : Type := mkMessage {
  topic : Topic;
  payload : Payload
}.

(** ** The entity's mutable attributes *)

Record Entity : Type := mkEntity {
  _player_state : MediaPlayerState;
  _title : option Payload;
  _artist : option Payload;
  _album : option Payload;
  _media_image : option Payload;
  _volume_db : option R;
  _min_db : option R;
  _max_db : option R
}.

(** [__init__]: idle, nothing known. *)
Definition init : Entity :=
  mkEntity IDLE None None None None None None None.

Definition set_player_state (v : MediaPlayerState) (e : Entity) : Entity :=
  mkEntity v (_title e) (_artist e) (_album e) (_media_image e)
           (_volume_db e) (_min_db e) (_max_db e).
Definition set_title (v : option Payload) (e : Entity) : Entity :=
  mkEntity (_player_state e) v (_artist e) (_album e) (_media_image e)
           (_volume_db e) (_min_db e) (_max_db e).
Definition set_artist (v : option Payload) (e : Entity) : Entity :=
  mkEntity (_player_state e) (_title e) v (_album e) (_media_image e)
           (_volume_db e) (_min_db e) (_max_db e).
Definition set_album (v : option Payload) (e : Entity) : Entity :=
  mkEntity (_player_state e) (_title e) (_artist e) v (_media_image e)
           (_volume_db e) (_min_db e) (_max_db e).
Definition set_media_image (v : option Payload) (e : Entity) : Entity :=
  mkEntity (_player_state e) (_title e) (_artist e) (_album e) v
           (_volume_db e) (_min_db e) (_max_db e).
Definition set_volume_db (v : option R) (e : Entity) : Entity :=
  mkEntity (_player_state e) (_title e) (_artist e) (_album e) (_media_image e)
           v (_min_db e) (_max_db e).
Definition set_min_db (v : option R) (e : Entity) : Entity :=
  mkEntity (_player_state e) (_title e) (_artist e) (_album e) (_media_image e)
           (_volume_db e) v (_max_db e).
Definition set_max_db (v : option R) (e : Entity) : Entity :=
  mkEntity (_player_state e) (_title e) (_artist e) (_album e) (_media_image e)
           (_volume_db e) (_min_db e) v.

(** [setattr(self, name, value)] on the metadata attributes. *)
Definition setattr (name : string) (v : Payload) (e : Entity) : Entity :=
  if String.eqb name "_title" then set_title (Some v) e
  else if String.eqb name "_artist" then set_artist (Some v) e
  else if String.eqb name "_album" then set_album (Some v) e
  else if String.eqb name "_media_image" then set_media_image (Some v) e
  else e.

(** ** Observable effects *)

Inductive LogLevel : Type := DEBUG | WARNING.

(** What a call does besides changing the entity, in order.
    [WriteHaState] is [async_write_ha_state()] and carries the attributes
    the host reads at that moment. *)
Inductive Event : Type :=
| Log (level : LogLevel) (fmt : string)
| WriteHaState (snapshot : Entity)
| Publish (command : Command)
| Sleep (seconds : R).

(** The commands published by a sequence of events. *)
Fixpoint commands (evs : list Event) : list Command :=
  match evs with
  | [] => []
  | Publish c :: rest => c :: commands rest
  | _ :: rest => commands rest
  end.

(** The snapshots written to the host by a sequence of events. *)
Fixpoint snapshots (evs : list Event) : list Entity :=
  match evs with
  | [] => []
  | WriteHaState e :: rest => e :: snapshots rest
  | _ :: rest => snapshots rest
  end.

(** ** The host: Python runtime, message bus and event loop

    Everything the entity calls but does not define.  [float_of_str] is
    the builtin [float] on a string ([None] for its [ValueError]) and
    [decode_utf8] is [bytes.decode("utf-8")] ([None] for its
    [UnicodeDecodeError]).  The entity runs on one event loop: other
    callbacks run only while a coroutine is suspended at an [await].
    [world_await] is the rest of the system seen from such a suspension:
    given what is awaited it says which inbound messages are delivered
    before the coroutine resumes and whether an awaited publish failed. *)

Inductive Await : Type :=
| AwaitPublish (command : Command)
| AwaitSleep (seconds : R).

Record Resumption : Type := mkResumption {
  inbound : list ReceiveMessage;
  failed : bool
}.

Class Host : Type := mkHost {
  float_of_str : string -> option R;
  decode_utf8 : list byte -> option string;
  World : Type;
  world_await : World -> Await -> World * Resumption
}.

Section Model.

Context {host : Host}.

(** The entity together with the rest of the system. *)
Record Sys : Type := mkSys {
  ent : Entity;
  world : World
}.

(** *** A monad for Python calls

    A call runs from a state to a state, emits events, and either
    returns a value or raises.  The state reached and the events emitted
    before a [raise] are kept, as in Python. *)

Inductive Outcome (A : Type) : Type :=
| Return (a : A)
| Raise (ex : Py.exn).

Record Run (A : Type) : Type := mkRun {
  final : Sys;
  emitted : list Event;
  outcome : Outcome A
}.

Definition M (A : Type) : Type := Sys -> Run A.

Definition ret {A : Type} (a : A) : M A :=
  fun s => mkRun A s [] (Return A a).

Definition raise {A : Type} (ex : Py.exn) : M A :=
  fun s => mkRun A s [] (Raise A ex).

Definition bind {A B : Type} (m : M A) (k : A -> M B) : M B :=
  fun s =>
    match m s with
    | mkRun _ s1 ev1 (Raise _ ex) => mkRun B s1 ev1 (Raise B ex)
    | mkRun _ s1 ev1 (Return _ a) =>
        match k a s1 with
        | mkRun _ s2 ev2 result => mkRun B s2 (ev1 ++ ev2) result
        end
    end.

(** [try: body except Exception as e: handler(e)]. *)
Definition try_except {A : Type} (body : M A) (handler : Py.exn -> M A) : M A :=
  fun s =>
    match body s with
    | mkRun _ s1 ev1 (Return _ a) => mkRun A s1 ev1 (Return A a)
    | mkRun _ s1 ev1 (Raise _ ex) =>
        match handler ex s1 with
        | mkRun _ s2 ev2 result => mkRun A s2 (ev1 ++ ev2) result
        end
    end.

(** Read an attribute of [self]. *)
Definition getattr {A : Type} (field : Entity -> A) : M A :=
  fun s => mkRun A s [] (Return A (field (ent s))).

(** Assign attributes of [self]. *)
Definition assign (f : Entity -> Entity) : M unit :=
  fun s => mkRun unit (mkSys (f (ent s)) (world s)) [] (Return unit tt).

Definition emit (ev : Event) : M unit :=
  fun s => mkRun unit s [ev] (Return unit tt).

(** A value or the exception of a fallible builtin. *)
Definition lift_sum {A : Type} (x : Py.exn + A) : M A :=
  match x with
  | inr a => ret a
  | inl ex => raise ex
  end.

Definition lift_option {A : Type} (ex : Py.exn) (x : option A) : M A :=
  match x with
  | Some a => ret a
  | None => raise ex
  end.

End Model.

Arguments Return {A} a.
Arguments Raise {A} ex.
Arguments mkRun {host A} final emitted outcome.
Arguments final {host A} r.
Arguments emitted {host A} r.
Arguments outcome {host A} r.

Declare Scope py_scope.
Delimit Scope py_scope with py.
Notation "x <- m ;; k" := (bind m (fun x => k))
  (at level 61, m at next level, right associativity) : py_scope.
Notation "m ;; k" := (bind m (fun _ => k))
  (at level 61, right associativity) : py_scope.
Local Open Scope py_scope.

(** ** The entity's methods *)

Section Methods.

Context {host : Host}.

Definition log (level : LogLevel) (fmt : string) : M unit :=
  emit (Log level fmt).

(** [self.async_write_ha_state()]: the host reads the attributes as they
    are now. *)
Definition async_write_ha_state : M unit :=
  fun s => mkRun s [WriteHaState (ent s)] (Return tt).

(** [_set_state], lines 105-118. *)
Definition _set_state (state : MediaPlayerState) : M unit :=
  log DEBUG "Setting state to '%s'." ;;
  assign (set_player_state state) ;;
  (if MediaPlayerState_eqb state IDLE then
     assign (set_title None) ;;
     assign (set_artist None) ;;
     assign (set_album None) ;;
     assign (set_media_image None)
   else ret tt) ;;
  async_write_ha_state.

(** *** Callbacks of [_subscribe_to_topics], lines 123-184 *)

Definition play_started (_ : ReceiveMessage) : M unit :=
  log DEBUG "Play started" ;;
  _set_state PLAYING.

Definition play_ended (_ : ReceiveMessage) : M unit :=
  log DEBUG "Play ended" ;;
  _set_state PAUSED.

Definition active_ended (_ : ReceiveMessage) : M unit :=
  log DEBUG "Active ended" ;;
  _set_state IDLE.

(** [set_metadata(attr)] returns the callback that stores the payload in
    the attribute [f"_{attr}"]. *)
Definition set_metadata (attr : string) : ReceiveMessage -> M unit :=
  fun msg =>
    assign (setattr ("_" ++ attr) (payload msg)) ;;
    log DEBUG "New %s: %s".

(** [" ".join(f"{b:02X}" for b in payload[:4])]: the elements of a
    [bytes] are integers and format; a character of a [str] does not take
    the format code [X].  The text itself is only logged. *)
Definition hex_header (p : Payload) : Py.exn + unit :=
  match p with
  | PBytes _ => inr tt
  | PStr EmptyString => inr tt
  | PStr (String _ _) => inl Py.ValueError
  end.

Definition artwork_updated (message : ReceiveMessage) : M unit :=
  lift_sum (hex_header (payload message)) ;;
  log DEBUG "New artwork (%s bytes); header: %s" ;;
  assign (set_media_image (Some (payload message))) ;;
  async_write_ha_state.

(** [float(parts[i])]. *)
Definition float_at (parts : list string) (i : nat) : M R :=
  part <- lift_option Py.IndexError (nth_error parts i) ;;
  lift_option Py.ValueError (float_of_str part).

Definition volume_updated (msg : ReceiveMessage) : M unit :=
  try_except
    (payload <- match payload msg with
                | PBytes b => lift_option Py.UnicodeDecodeError (decode_utf8 b)
                | PStr s => ret s
                end ;;
     let parts := Py.split "," payload in
     if (4 <=? List.length parts)%nat then
       v <- float_at parts 1 ;;
       assign (set_volume_db (Some v)) ;;
       lo <- float_at parts 2 ;;
       assign (set_min_db (Some lo)) ;;
       hi <- float_at parts 3 ;;
       assign (set_max_db (Some hi)) ;;
       log DEBUG "Volume update: db=%s, min=%s, max=%s" ;;
       async_write_ha_state
     else ret tt)
    (fun e => log WARNING "Failed to parse volume MQTT payload: %s").

(** [topic_map], lines 187-197: callback and encoding per topic. *)
Definition topic_map
  : list (TopLevelTopic * ((ReceiveMessage -> M unit) * option string)) :=
  [ (PLAY_START, (play_started, Some "utf-8"));
    (PLAY_RESUME, (play_started, Some "utf-8"));
    (PLAY_END, (play_ended, Some "utf-8"));
    (PLAY_FLUSH, (play_ended, Some "utf-8"));
    (ACTIVE_END, (active_ended, Some "utf-8"));
    (ARTIST, (set_metadata "artist", Some "utf-8"));
    (ALBUM, (set_metadata "album", Some "utf-8"));
    (TITLE, (set_metadata "title", Some "utf-8"));
    (COVER, (artwork_updated, None)) ].

Definition volume_topics : list Topic := [SsncPvol; VolumeFallback].

(** The subscriptions made by [_subscribe_to_topics], lines 199-218, in
    the order they are made: the two volume topics, then [topic_map]. *)
Definition subscriptions : list (Topic * (ReceiveMessage -> M unit)) :=
  map (fun t => (t, volume_updated)) volume_topics
  ++ map (fun entry => (TopLevel (fst entry), fst (snd entry))) topic_map.

(** The bus calls every callback subscribed to the topic of a message;
    what a callback raises goes to the bus, not to the entity. *)
Fixpoint call_subscribed (subs : list (Topic * (ReceiveMessage -> M unit)))
  (msg : ReceiveMessage) : M unit :=
  match subs with
  | [] => ret tt
  | (t, cb) :: rest =>
      (if Topic_eqb t (topic msg)
       then try_except (cb msg) (fun _ => ret tt)
       else ret tt) ;;
      call_subscribed rest msg
  end.

Definition deliver (msg : ReceiveMessage) : M unit :=
  call_subscribed subscriptions msg.

Fixpoint deliver_all (msgs : list ReceiveMessage) : M unit :=
  match msgs with
  | [] => ret tt
  | msg :: rest => deliver msg ;; deliver_all rest
  end.

(** *** Volume conversion, lines 287-307 *)

Definition _tapered_db_to_percent (self : Entity) (db : option R) : Py.exn + R :=
  match _max_db self, db with
  | Some max_db, Some db =>
      match Py.pow10 ((db - max_db) / 20) with
      | inr power => inr (Py.max 0 (Py.min 1 power))
      | inl ex => inl ex
      end
  | _, _ => inr 0
  end.

Definition _tapered_percent_to_db (self : Entity) (percent : R) : Py.exn + R :=
  match _max_db self with
  | Some max_db =>
      if Rle_dec percent 0
      then inr (match _min_db self with Some min_db => min_db | None => -30 end)
      else match Py.log10 percent with
           | inr l => inr (max_db + 20 * l)
           | inl ex => inl ex
           end
  | None => inr (match _min_db self with Some min_db => min_db | None => -30 end)
  end.

Definition volume_level (self : Entity) : Py.exn + option R :=
  match _volume_db self, _min_db self, _max_db self with
  | Some _, Some _, Some _ =>
      match _tapered_db_to_percent self (_volume_db self) with
      | inr level => inr (Some level)
      | inl ex => inl ex
      end
  | _, _, _ => inr None
  end.

(** *** Commands, lines 348-400 *)

(** Suspend the running coroutine: the messages that arrive meanwhile
    are delivered to the callbacks, then the coroutine resumes. *)
Definition suspend (a : Await) : M bool :=
  fun s =>
    match world_await (world s) a with
    | (w, resumption) =>
        match deliver_all (inbound resumption) (mkSys (ent s) w) with
        | mkRun s' evs _ => mkRun s' evs (Return (failed resumption))
        end
    end.

(** [await async_publish(self.hass, self._remote_topic, command)]. *)
Definition async_publish (command : Command) : M unit :=
  emit (Publish command) ;;
  failure <- suspend (AwaitPublish command) ;;
  if failure : bool then raise Py.PublishError else ret tt.

(** [await asyncio.sleep(delay)]. *)
Definition asyncio_sleep (delay : R) : M unit :=
  emit (Sleep delay) ;;
  suspend (AwaitSleep delay) ;;
  ret tt.

Definition _send_remote_command (command : Command) : M unit :=
  log DEBUG "Sending '%s' command" ;;
  async_publish command.

Definition _send_command_update_state (command : Command)
  (state : MediaPlayerState) : M unit :=
  _send_remote_command command ;;
  _set_state state.

Definition async_media_play : M unit :=
  _send_command_update_state PLAY PLAYING.
Definition async_media_pause : M unit :=
  _send_command_update_state PAUSE PAUSED.
Definition async_media_stop : M unit :=
  _send_command_update_state STOP IDLE.
Definition async_media_previous_track : M unit :=
  _send_remote_command SKIP_PREVIOUS.
Definition async_media_next_track : M unit :=
  _send_remote_command SKIP_NEXT.
Definition async_volume_up : M unit :=
  _send_remote_command VOLUME_UP.
Definition async_volume_down : M unit :=
  _send_remote_command VOLUME_DOWN.

Definition async_media_play_pause : M unit :=
  log DEBUG "Sending toggle play/pause command; currently %s" ;;
  state <- getattr _player_state ;;
  if MediaPlayerState_eqb state PLAYING
  then _send_command_update_state PAUSE PAUSED
  else _send_command_update_state PLAY PLAYING.

(** *** Closed-loop volume setting, lines 309-342 *)

Definition tolerance : R := 5 / 10.
Definition max_attempts : nat := 50.
Definition delay : R := 2 / 10.

(** [f"{x:.2f}"]: a float formats, [None] does not. *)
Definition format_2f (x : option R) : Py.exn + unit :=
  match x with
  | Some _ => inr tt
  | None => inl Py.TypeError
  end.

(** What a pass through the loop body ends with: [break], or the next
    test of the loop condition. *)
Inductive PassEnd : Type := Break | Again.

(** The body of the [while] loop, lines 326-340. *)
Definition feedback_pass (target_db : R) : M PassEnd :=
  current_db <- getattr _volume_db ;;
  match current_db with
  | None =>
      asyncio_sleep delay ;;
      ret Again
  | Some current_db =>
      let diff := target_db - current_db in
      if Rle_dec (Rabs diff) tolerance then
        log DEBUG "Target volume reached" ;;
        ret Break
      else
        (if Rgt_dec diff 0 then async_volume_up else async_volume_down) ;;
        asyncio_sleep delay ;;
        ret Again
  end.

(** How the [while] loop was left: by [break], or by its condition
    becoming false, which runs the [else] clause. *)
Inductive LoopExit : Type := Broke | Exhausted.

(** The loop [while attempts < max_attempts: ... else: ...].  Every pass
    that does not [break] adds one to [attempts], so the recursion is on
    [budget = max_attempts - attempts].  The result is the final value of
    [attempts] and the way the loop was left. *)
Fixpoint feedback_loop (target_db : R) (budget attempts : nat)
  : M (nat * LoopExit) :=
  match budget with
  | O =>
      last <- getattr _volume_db ;;
      lift_sum (format_2f last) ;;
      log WARNING "Could not reach target volume" ;;
      ret (attempts, Exhausted)
  | S budget' =>
      pass <- feedback_pass target_db ;;
      match pass with
      | Break => ret (attempts, Broke)
      | Again => feedback_loop target_db budget' (S attempts)
      end
  end.

Definition async_set_volume_level (volume : R) : M unit :=
  min_db <- getattr _min_db ;;
  max_db <- getattr _max_db ;;
  match min_db, max_db with
  | Some _, Some _ =>
      volume_db <- getattr _volume_db ;;
      match volume_db with
      | None => log WARNING "Cannot set volume: current volume unknown"
      | Some _ =>
          self <- getattr (fun e => e) ;;
          target_db <- lift_sum (_tapered_percent_to_db self volume) ;;
          lift_sum (format_2f volume_db) ;;
          log DEBUG "Start volume feedback loop" ;;
          feedback_loop target_db max_attempts 0 ;;
          ret tt
      end
  | _, _ => log WARNING "Cannot set volume: min_db or max_db is None"
  end.

End Methods.

(** ** A concrete host for examples

    Numbers are read as plain decimal literals (an optional sign, digits,
    an optional fraction), a subset of what [float] accepts; bytes are
    decoded when they are all ASCII; the world is a script: the list of
    messages that arrive during each successive suspension, and no
    publish fails. *)

Module Example.

Definition digit_value (c : ascii) : option Z :=
  let n := nat_of_ascii c in
  if ((48 <=? n) && (n <=? 57))%nat then Some (Z.of_nat (n - 48)) else None.

(** Reads a run of digits: the number read so far, how many digits were
    read, and what follows them. *)
Fixpoint read_digits (s : string) (acc : Z) (count : nat) : Z * nat * string :=
  match s with
  | EmptyString => (acc, count, EmptyString)
  | String c rest =>
      match digit_value c with
      | Some d => read_digits rest (acc * 10 + d)%Z (S count)
      | None => (acc, count, s)
      end
  end.

Definition read_sign (s : string) : Z * string :=
  match s with
  | String "-" rest => ((-1)%Z, rest)
  | String "+" rest => (1%Z, rest)
  | _ => (1%Z, s)
  end.

(** A decimal literal as a mantissa and a number of fraction digits. *)
Definition parse_decimal (s : string) : option (Z * nat) :=
  let (sign, body) := read_sign s in
  let '(int_part, int_digits, after_int) := read_digits body 0%Z 0%nat in
  match int_digits, after_int with
  | O, _ => None
  | S _, EmptyString => Some ((sign * int_part)%Z, O)
  | S _, String "." fraction =>
      let '(mantissa, digits, rest) := read_digits fraction int_part 0%nat in
      match digits, rest with
      | S _, EmptyString => Some ((sign * mantissa)%Z, digits)
      | _, _ => None
      end
  | S _, String _ _ => None
  end.

Definition decimal_to_R (d : Z * nat) : R :=
  IZR (fst d) / IZR (10 ^ Z.of_nat (snd d)).

Definition decimal_float (s : string) : option R :=
  option_map decimal_to_R (parse_decimal s).

Fixpoint ascii_decode (b : list byte) : option string :=
  match b with
  | [] => Some EmptyString
  | x :: rest =>
      if (Byte.to_nat x <? 128)%nat
      then option_map (String (ascii_of_byte x)) (ascii_decode rest)
      else None
  end.

Definition Script : Type := list (list ReceiveMessage).

Definition scripted_await (w : Script) (_ : Await) : Script * Resumption :=
  match w with
  | [] => ([], mkResumption [] false)
  | arriving :: later => (later, mkResumption arriving false)
  end.

Definition scripted_host : Host :=
  mkHost decimal_float ascii_decode Script scripted_await.

(** An entity that is playing, with the envelope of a receiver whose
    range is -30 dB to 0 dB and whose current volume is [v]. *)
Definition entity_at (v : R) : Entity :=
  mkEntity PLAYING None None None None (Some v) (Some (-30)) (Some 0).

(** The entity just created, in a world where nothing ever arrives. *)
Definition quiet : @Sys scripted_host := @mkSys scripted_host init [].

(** A volume report on the primary channel. *)
Definition pvol (report : string) : ReceiveMessage :=
  mkMessage SsncPvol (PStr report).

(** The receiver of the specification's scenario: it has the range
    -30 dB to 0 dB and answers each command with a report one decibel
    higher, first -1 dB, then 0 dB.  The report arrives while the loop
    sleeps; nothing arrives while a command is being published. *)
Definition two_steps_up : Script :=
  [ []; [pvol "0,-1.0,-30.0,0.0"]; []; [pvol "0,0.0,-30.0,0.0"] ].

(** The events of a pass that sends [c] in a world where nothing
    arrives. *)
Definition unanswered_pass (c : Command) : list Event :=
  [Log DEBUG "Sending '%s' command"; Publish c; Sleep delay].

End Example.

(** ** Properties named by the specification *)

Section Properties.

Context {host : Host}.

(** The text of a payload as [volume_updated] reads it. *)
Definition payload_text (p : Payload) : option string :=
  match p with
  | PStr s => Some s
  | PBytes b => decode_utf8 b
  end.

(** The comma-separated fields of a report. *)
Definition fields (report : string) : list string := Py.split "," report.

(** Field [i] of a report, counted from 1, is not a number. *)
Definition non_numeric_field (report : string) (i : nat) : Prop :=
  exists f, nth_error (fields report) (i - 1) = Some f /\ float_of_str f = None.

(** A malformed report: fewer than 4 fields, or one of fields 2-4 is
    not a number. *)
Definition malformed (report : string) : Prop :=
  (List.length (fields report) < 4)%nat \/
  non_numeric_field report 2 \/ non_numeric_field report 3 \/
  non_numeric_field report 4.

(** The volume envelope of the entity. *)
Definition envelope (e : Entity) : option R * option R * option R :=
  (_volume_db e, _min_db e, _max_db e).

(** The metadata of the entity. *)
Definition metadata (e : Entity)
  : option Payload * option Payload * option Payload * option Payload :=
  (_title e, _artist e, _album e, _media_image e).

(** A run logged something. *)
Definition logs_something {A : Type} (r : Run A) : Prop :=
  exists level fmt, In (Log level fmt) (emitted r).

(** A run notified the host of a state change. *)
Definition notifies {A : Type} (r : Run A) : Prop :=
  snapshots (emitted r) <> [].

(** What the specification says of a malformed report: the failure is
    logged, the envelope is as before, nothing is raised. *)
Definition malformed_report_logged_and_ignored (msg : ReceiveMessage)
  (s : Sys) : Prop :=
  let r := volume_updated msg s in
  logs_something r /\
  envelope (ent (final r)) = envelope (ent s) /\
  outcome r = Return tt.

(** [min_db <= volume_db <= max_db] when all three are known. *)
Definition envelope_invariant (e : Entity) : Prop :=
  match _volume_db e, _min_db e, _max_db e with
  | Some v, Some lo, Some hi => lo <= v <= hi
  | _, _, _ => True
  end.

(** The envelope is fully known. *)
Definition envelope_known (e : Entity) : Prop :=
  _volume_db e <> None /\ _min_db e <> None /\ _max_db e <> None.

(** The current volume is known; every step of the feedback loop keeps
    it so. *)
Definition volume_known (s : Sys) : Prop := _volume_db (ent s) <> None.

(** The log line that starts the feedback loop. *)
Definition start_debug : Event := Log DEBUG "Start volume feedback loop".

(** The two log lines that end the feedback loop. *)
Definition reached_debug : Event := Log DEBUG "Target volume reached".
Definition exhausted_warning : Event := Log WARNING "Could not reach target volume".

(** [clamp(x, lo, hi)] of the conversion law. *)
Definition clamp (x lo hi : R) : R := Rmax lo (Rmin hi x).

(** The two log lines of [volume_updated]. *)
Definition parse_warning : Event :=
  Log WARNING "Failed to parse volume MQTT payload: %s".

Definition volume_debug : Event :=
  Log DEBUG "Volume update: db=%s, min=%s, max=%s".

(** The relative command that moves the volume towards the target. *)
Definition command_towards (target_db current_db : R) : Command :=
  if Rgt_dec target_db current_db then VOLUME_UP else VOLUME_DOWN.

End Properties.

(** ** Accessors read by the host, lines 243-280 and 402-407 *)

Section Accessors.

Context {host : Host}.

(** [hashlib.md5(data).hexdigest()] as a function of the bytes. *)
Variable md5_hexdigest : list byte -> string.

(** The truth value of the attribute in [if self._media_image:]: [None],
    the empty [bytes] and the empty [str] are false. *)
Definition truthy (x : option Payload) : bool :=
  match x with
  | None => false
  | Some (PStr EmptyString) => false
  | Some (PBytes []) => false
  | Some _ => true
  end.

(** [hashlib.md5(x).hexdigest()]: a [str] has to be encoded first, it is
    a [TypeError]. *)
Definition hashlib_md5 (x : Payload) : Py.exn + string :=
  match x with
  | PBytes b => inr (md5_hexdigest b)
  | PStr _ => inl Py.TypeError
  end.

Definition state : M MediaPlayerState :=
  log DEBUG "Getting state: %s" ;;
  getattr _player_state.

Definition media_title : M (option Payload) :=
  log DEBUG "Getting media title: %s" ;;
  getattr _title.

Definition media_artist : M (option Payload) :=
  log DEBUG "Getting media artist: %s" ;;
  getattr _artist.

Definition media_album_name : M (option Payload) :=
  log DEBUG "Getting media album: %s" ;;
  getattr _album.

Definition media_image_hash : M (option string) :=
  image <- getattr _media_image ;;
  match image with
  | Some data =>
      if truthy image then
        image_hash <- lift_sum (hashlib_md5 data) ;;
        log DEBUG "Media image hash: %s" ;;
        ret (Some image_hash)
      else ret None
  | None => ret None
  end.

Definition async_get_media_image : M (option Payload * option string) :=
  log DEBUG "Getting media image" ;;
  image <- getattr _media_image ;;
  if truthy image then ret (image, Some "image/jpeg")
  else ret (None, None).

End Accessors.

(** ** Names derived from the base topic, lines 200 and 225-227 *)

(** [unique_id]: [f"shairport-sync-{self._base_topic}"]. *)
Definition unique_id (_base_topic : string) : string :=
  "shairport-sync-" ++ _base_topic.

(** The names of the two volume topics,
    [f"{self._base_topic}/ssnc/pvol"] and [f"{self._base_topic}/volume"]. *)
Definition volume_topic_names (_base_topic : string) : list string :=
  [_base_topic ++ "/ssnc/pvol"; _base_topic ++ "/volume"].

(** ** The life of the subscriptions, lines 94-103 and 199-218

    The message bus as the entity uses it: [async_subscribe] either
    raises ([None]) or registers the subscription and returns the handle
    that releases it; calling the handle is [unsubscribe]. *)

Class Bus : Type := mkBus {
  BusState : Type;
  Handle : Type;
  async_subscribe : BusState -> Topic -> option string -> option (BusState * Handle);
  unsubscribe : BusState -> Handle -> BusState
}.

Section Lifecycle.

Context {host : Host} {bus : Bus}.

(** The bus and the entity's list [_subscriptions]. *)
Record Connected : Type := mkConnected {
  bus_state : BusState;
  _subscriptions : list Handle
}.

(** What [_subscribe_to_topics] asks for, in order: topic, encoding and
    the debug line written before the request.  The two volume topics
    come first, with the encoding ["utf-8"], then the entries of
    [topic_map] with their own encoding. *)
Definition requested : list (Topic * option string * string) :=
  (map (fun t => (t, Some "utf-8",
                  "Subscribing to topic %s with callback volume_updated"))
       volume_topics
   ++ map (fun entry => (TopLevel (fst entry), snd (snd entry),
                         "Subscribing to topic %s with callback %s"))
          topic_map)%list.

(** The two [for] loops of [_subscribe_to_topics]: each handle is
    appended as soon as it is obtained; a request that raises ends the
    method, and the result is [false]. *)
Fixpoint subscribe_each (wanted : list (Topic * option string * string))
  (c : Connected) : Connected * list Event * bool :=
  match wanted with
  | [] => (c, [], true)
  | (t, encoding, line) :: rest =>
      match async_subscribe (bus_state c) t encoding with
      | None => (c, [Log DEBUG line], false)
      | Some (b, subscription) =>
          match subscribe_each rest
                  (mkConnected b (_subscriptions c ++ [subscription])%list) with
          | (c', evs, ok) => (c', Log DEBUG line :: evs, ok)
          end
      end
  end.

Definition _subscribe_to_topics (c : Connected) : Connected * list Event * bool :=
  subscribe_each requested c.

(** [async_added_to_hass]: the base class's method, then the
    subscriptions. *)
Definition async_added_to_hass (c : Connected) : Connected * list Event * bool :=
  _subscribe_to_topics c.

(** [async_will_remove_from_hass]: every handle of [_subscriptions] is
    called, in order; the list itself is left as it is. *)
Definition async_will_remove_from_hass (c : Connected) : Connected * list Event :=
  (mkConnected (fold_left unsubscribe (_subscriptions c) (bus_state c))
               (_subscriptions c),
   [Log DEBUG "Removing %s subscriptions"]).

End Lifecycle.

(** ** Test doubles *)

Module Doubles.

(** A host in which nothing ever arrives and no publish fails. *)
Definition deaf_host : Host :=
  mkHost Example.decimal_float Example.ascii_decode unit
         (fun _ _ => (tt, mkResumption [] false)).

(** A bus that hands out numbered handles: the state is the list of
    handles in use, a new handle is one more than the largest in use,
    and the bus refuses to go beyond [limit] subscriptions. *)
Definition counting_bus (limit : nat) : Bus :=
  mkBus (list nat) nat
        (fun used _ _ =>
           if (List.length used <? limit)%nat
           then Some ((used ++ [S (list_max used)])%list, S (list_max used))
           else None)
        (fun used h => remove Nat.eq_dec h used).

End Doubles.

(** * Verification *)

(** ** Playback status and metadata *)

Section StatusAndMetadata.

Context {host : Host}.

Lemma set_state_run (state : MediaPlayerState) (e : Entity) (w : World) :
  _set_state state (mkSys e w) =
  let e' :=
    match state with
    | IDLE => mkEntity IDLE None None None None (_volume_db e) (_min_db e) (_max_db e)
    | _ => set_player_state state e
    end in
  mkRun (mkSys e' w) [Log DEBUG "Setting state to '%s'."; WriteHaState e'] (Return tt).
Proof. destruct state; reflexivity. Qed.

Lemma active_ended_run (msg : ReceiveMessage) (e : Entity) (w : World) :
  active_ended msg (mkSys e w) =
  let e' := mkEntity IDLE None None None None (_volume_db e) (_min_db e) (_max_db e) in
  mkRun (mkSys e' w)
        [Log DEBUG "Active ended"; Log DEBUG "Setting state to '%s'."; WriteHaState e']
        (Return tt).
Proof. reflexivity. Qed.

Lemma set_metadata_run (attr : string) (msg : ReceiveMessage) (e : Entity) (w : World) :
  set_metadata attr msg (mkSys e w) =
  mkRun (mkSys (setattr ("_" ++ attr) (payload msg) e) w)
        [Log DEBUG "New %s: %s"] (Return tt).
Proof. reflexivity. Qed.

Lemma artwork_updated_bytes_run (t : Topic) (b : list byte) (e : Entity) (w : World) :
  artwork_updated (mkMessage t (PBytes b)) (mkSys e w) =
  let e' := set_media_image (Some (PBytes b)) e in
  mkRun (mkSys e' w)
        [Log DEBUG "New artwork (%s bytes); header: %s"; WriteHaState e']
        (Return tt).
Proof. reflexivity. Qed.

(** C10: [_set_state] is one uninterrupted update.  Its only events are a
    debug line and one state write that shows the finished update; with
    [IDLE] the finished update has title, artist, album and artwork
    cleared, with [PLAYING] or [PAUSED] it has them as before.  The
    [active-end] callback is such an update to [IDLE]. *)
Theorem set_state_idle_clears_metadata_atomically
  (state : MediaPlayerState) (msg : ReceiveMessage) (s : Sys) :
  let r := _set_state state s in
  let after := ent (final r) in
  outcome r = Return tt /\
  world (final r) = world s /\
  emitted r = [Log DEBUG "Setting state to '%s'."; WriteHaState after] /\
  _player_state after = state /\
  envelope after = envelope (ent s) /\
  (state = IDLE -> metadata after = (None, None, None, None)) /\
  (state <> IDLE -> metadata after = metadata (ent s)) /\
  (let r' := active_ended msg s in
   _player_state (ent (final r')) = IDLE /\
   metadata (ent (final r')) = (None, None, None, None) /\
   snapshots (emitted r') = [ent (final r')]).
Proof.
  destruct s as [e w]. cbv zeta.
  rewrite set_state_run, active_ended_run. cbv zeta.
  destruct state; cbn; repeat split; intros; try reflexivity; congruence.
Qed.

(** C2, at the metadata handlers: the callback built by [set_metadata]
    stores the payload and logs, and writes no state to the host; a
    title message delivered through the subscriptions changes the title
    and notifies nobody. *)
Theorem set_metadata_does_not_notify
  (text : string) (s : Sys) :
  let msg := mkMessage (TopLevel TITLE) (PStr text) in
  let r := deliver msg s in
  outcome r = Return tt /\
  _title (ent (final r)) = Some (PStr text) /\
  snapshots (emitted r) = [] /\
  ~ notifies r /\
  (forall attr m s', snapshots (emitted (set_metadata attr m s')) = []).
Proof.
  destruct s as [e w]. cbv zeta.
  split; [reflexivity|]. split; [reflexivity|]. split; [reflexivity|].
  split.
  - unfold notifies. cbn. congruence.
  - intros attr m [e' w']. rewrite set_metadata_run. reflexivity.
Qed.

(** The sibling handlers do notify: status, artwork. *)
Lemma status_and_artwork_notify (msg : ReceiveMessage) (b : list byte) (s : Sys) :
  notifies (play_started msg s) /\
  notifies (play_ended msg s) /\
  notifies (active_ended msg s) /\
  notifies (artwork_updated (mkMessage (TopLevel COVER) (PBytes b)) s).
Proof.
  destruct s as [e w]. unfold notifies. cbn. repeat split; congruence.
Qed.

End StatusAndMetadata.

(** ** Volume reports *)

Section VolumeReports.

Context {host : Host}.

Lemma four_fields (l : list string) :
  (4 <= List.length l)%nat ->
  exists a b c d rest, l = a :: b :: c :: d :: rest.
Proof.
  destruct l as [|a [|b [|c [|d rest]]]]; cbn; intros H; try lia.
  now exists a, b, c, d, rest.
Qed.

(** A report with fewer than 4 fields passes through the handler without
    any effect. *)
Lemma volume_updated_short (t : Topic) (p : Payload) (report : string) (s : Sys) :
  payload_text p = Some report ->
  (List.length (fields report) < 4)%nat ->
  volume_updated (mkMessage t p) s = mkRun s [] (Return tt).
Proof.
  intros Htext Hlen. unfold fields in Hlen.
  apply Nat.leb_gt in Hlen.
  unfold volume_updated, try_except, bind.
  destruct p as [txt | b]; cbn -[Nat.leb] in Htext |- *.
  - injection Htext as ->. rewrite Hlen. reflexivity.
  - rewrite Htext. cbn -[Nat.leb]. rewrite Hlen. reflexivity.
Qed.

(** Bytes that do not decode are reported and dropped. *)
Lemma volume_updated_undecodable (t : Topic) (b : list byte) (s : Sys) :
  decode_utf8 b = None ->
  volume_updated (mkMessage t (PBytes b)) s = mkRun s [parse_warning] (Return tt).
Proof.
  intros H. unfold volume_updated, try_except, bind. cbn. rewrite H. reflexivity.
Qed.

(** What the handler does with a report of at least 4 fields: the three
    assignments are made one after the other, each after its own
    [float], and the first [float] that fails ends the handler with a
    warning. *)
Lemma volume_updated_run (t : Topic) (p : Payload) (report : string)
  (a b c d : string) (rest : list string) (e : Entity) (w : World) :
  payload_text p = Some report ->
  fields report = a :: b :: c :: d :: rest ->
  volume_updated (mkMessage t p) (mkSys e w) =
  match float_of_str b with
  | None => mkRun (mkSys e w) [parse_warning] (Return tt)
  | Some v =>
      let e1 := set_volume_db (Some v) e in
      match float_of_str c with
      | None => mkRun (mkSys e1 w) [parse_warning] (Return tt)
      | Some lo =>
          let e2 := set_min_db (Some lo) e1 in
          match float_of_str d with
          | None => mkRun (mkSys e2 w) [parse_warning] (Return tt)
          | Some hi =>
              let e3 := set_max_db (Some hi) e2 in
              mkRun (mkSys e3 w) [volume_debug; WriteHaState e3] (Return tt)
          end
      end
  end.
Proof.
  intros Htext Hfields. unfold fields in Hfields.
  unfold volume_updated, try_except, bind, float_at.
  destruct p as [txt | bs]; cbn in Htext |- *.
  - injection Htext as ->. rewrite Hfields. cbn.
    destruct (float_of_str b); cbn; [|reflexivity].
    destruct (float_of_str c); cbn; [|reflexivity].
    destruct (float_of_str d); cbn; reflexivity.
  - rewrite Htext. cbn. rewrite Hfields. cbn.
    destruct (float_of_str b); cbn; [|reflexivity].
    destruct (float_of_str c); cbn; [|reflexivity].
    destruct (float_of_str d); cbn; reflexivity.
Qed.

(** The handler never raises. *)
Lemma volume_updated_returns (msg : ReceiveMessage) (s : Sys) :
  outcome (volume_updated msg s) = Return tt.
Proof.
  destruct msg as [t p], s as [e w].
  destruct (payload_text p) as [report|] eqn:Htext.
  - destruct (le_lt_dec 4 (List.length (fields report))) as [Hlen | Hlen].
    + destruct (four_fields _ Hlen) as (a & b & c & d & rest & Hf).
      rewrite (volume_updated_run t p report a b c d rest e w Htext Hf).
      destruct (float_of_str b); [|reflexivity].
      destruct (float_of_str c); [|reflexivity].
      destruct (float_of_str d); reflexivity.
    + now rewrite (volume_updated_short t p report _ Htext Hlen).
  - destruct p as [txt | bs]; [discriminate|].
    now rewrite volume_updated_undecodable.
Qed.

(** The handler never turns a known current volume into an unknown one,
    publishes nothing and leaves the world alone. *)
Lemma volume_updated_keeps (msg : ReceiveMessage) (s : Sys) :
  let r := volume_updated msg s in
  world (final r) = world s /\
  commands (emitted r) = [] /\
  (_volume_db (ent s) <> None -> _volume_db (ent (final r)) <> None) /\
  metadata (ent (final r)) = metadata (ent s) /\
  _player_state (ent (final r)) = _player_state (ent s).
Proof.
  destruct msg as [t p], s as [e w]. cbv zeta.
  destruct (payload_text p) as [report|] eqn:Htext.
  - destruct (le_lt_dec 4 (List.length (fields report))) as [Hlen | Hlen].
    + destruct (four_fields _ Hlen) as (a & b & c & d & rest & Hf).
      rewrite (volume_updated_run t p report a b c d rest e w Htext Hf).
      destruct (float_of_str b); [|cbn; auto].
      destruct (float_of_str c); [|cbn; repeat split; congruence].
      destruct (float_of_str d); cbn; repeat split; congruence.
    + rewrite (volume_updated_short t p report _ Htext Hlen). cbn. auto.
  - destruct p as [txt | bs]; [discriminate|].
    rewrite volume_updated_undecodable by assumption. cbn. auto.
Qed.

(** Both volume topics are subscribed with [volume_updated] and with
    nothing else, so delivering a message on either of them runs exactly
    that handler. *)
Lemma deliver_volume (t : Topic) (p : Payload) (s : Sys) :
  t = SsncPvol \/ t = VolumeFallback ->
  let r := deliver (mkMessage t p) s in
  let h := volume_updated (mkMessage t p) s in
  final r = final h /\ emitted r = emitted h /\ outcome r = Return tt.
Proof.
  intros Ht. cbv zeta.
  pose proof (volume_updated_returns (mkMessage t p) s) as Hret.
  destruct Ht as [-> | ->];
    unfold deliver, subscriptions;
    cbn -[volume_updated]; unfold try_except, bind;
    cbn -[volume_updated];
    destruct (volume_updated _ s) as [f ev o]; cbn in Hret |- *;
    rewrite Hret; cbn; rewrite ?app_nil_r; auto.
Qed.

(** Delivering a well-formed report, as an equation. *)
Lemma deliver_well_formed (t : Topic) (p : Payload) (report a b c d : string)
  (rest : list string) (v lo hi : R) (e : Entity) (w : World) :
  t = SsncPvol \/ t = VolumeFallback ->
  payload_text p = Some report ->
  fields report = a :: b :: c :: d :: rest ->
  float_of_str b = Some v ->
  float_of_str c = Some lo ->
  float_of_str d = Some hi ->
  let e' := set_max_db (Some hi) (set_min_db (Some lo) (set_volume_db (Some v) e)) in
  deliver (mkMessage t p) (mkSys e w) =
  mkRun (mkSys e' w) [volume_debug; WriteHaState e'] (Return tt).
Proof.
  intros Ht Htext Hf Hb Hc Hd. cbv zeta.
  destruct (deliver_volume t p (mkSys e w) Ht) as (Hfin & Hem & Hout).
  rewrite (volume_updated_run t p report a b c d rest e w Htext Hf) in Hfin, Hem.
  rewrite Hb, Hc, Hd in Hfin, Hem. cbv zeta in Hfin, Hem.
  destruct (deliver (mkMessage t p) (mkSys e w)) as [f ev o].
  cbn [final emitted outcome] in Hfin, Hem, Hout.
  rewrite Hfin, Hem, Hout. reflexivity.
Qed.

(** A message on any other topic leaves the envelope as it is, publishes
    nothing, does not touch the world, and what its callback raises
    stays with the bus. *)
Lemma deliver_top_level (tt' : TopLevelTopic) (p : Payload) (s : Sys) :
  let r := deliver (mkMessage (TopLevel tt') p) s in
  envelope (ent (final r)) = envelope (ent s) /\
  world (final r) = world s /\
  commands (emitted r) = [] /\
  outcome r = Return tt.
Proof.
  destruct s as [e w].
  destruct tt'; destruct p as [[|ch txt] | b]; cbn; auto.
Qed.

(** Whatever is delivered, a known current volume stays known, nothing
    is published, the world is left alone and nothing is raised. *)
Lemma deliver_keeps (msg : ReceiveMessage) (s : Sys) :
  let r := deliver msg s in
  world (final r) = world s /\
  commands (emitted r) = [] /\
  (_volume_db (ent s) <> None -> _volume_db (ent (final r)) <> None) /\
  outcome r = Return tt.
Proof.
  destruct msg as [t p]. cbv zeta.
  destruct t as [tt' | | ].
  - destruct (deliver_top_level tt' p s) as (Henv & Hw & Hc & Ho).
    repeat split; auto.
    unfold envelope in Henv. injection Henv as Hv _ _. now rewrite Hv.
  - destruct (deliver_volume SsncPvol p s (or_introl eq_refl)) as (Hf & He & Ho).
    destruct (volume_updated_keeps (mkMessage SsncPvol p) s) as (Hw & Hc & Hv & _).
    rewrite Hf, He. auto.
  - destruct (deliver_volume VolumeFallback p s (or_intror eq_refl)) as (Hf & He & Ho).
    destruct (volume_updated_keeps (mkMessage VolumeFallback p) s) as (Hw & Hc & Hv & _).
    rewrite Hf, He. auto.
Qed.

(** C4: a well-formed report ["a,b,c,d"], delivered on the primary or on
    the fallback volume topic, sets [volume_db], [min_db] and [max_db] to
    the numbers read from fields 2, 3 and 4, whatever field 1 and the
    fields after the fourth are, and whether or not [c <= d]; it changes
    nothing else, writes the new state to the host and raises nothing. *)
Theorem well_formed_report_sets_envelope
  (t : Topic) (p : Payload) (report a b c d : string) (rest : list string)
  (v lo hi : R) (s : Sys) :
  t = SsncPvol \/ t = VolumeFallback ->
  payload_text p = Some report ->
  fields report = a :: b :: c :: d :: rest ->
  float_of_str b = Some v ->
  float_of_str c = Some lo ->
  float_of_str d = Some hi ->
  let r := deliver (mkMessage t p) s in
  let after := ent (final r) in
  _volume_db after = Some v /\
  _min_db after = Some lo /\
  _max_db after = Some hi /\
  metadata after = metadata (ent s) /\
  _player_state after = _player_state (ent s) /\
  emitted r = [volume_debug; WriteHaState after] /\
  outcome r = Return tt.
Proof.
  intros Ht Htext Hf Hb Hc Hd. cbv zeta.
  destruct (deliver_volume t p s Ht) as (Hfin & Hem & Hout).
  rewrite Hfin, Hem, Hout. destruct s as [e w].
  rewrite (volume_updated_run t p report a b c d rest e w Htext Hf).
  rewrite Hb, Hc, Hd. cbn. repeat split; reflexivity.
Qed.

(** C1, as the handler has it: a report with fewer than 4 fields goes
    through without a trace, nothing is logged and nothing changes.  A
    report of at least 4 fields with a field among 2-4 that is not a
    number ends in exactly one warning; [max_db] is as before, and the
    whole state is as before when field 2 is the one that is not a
    number.  In every case nothing is raised and no state is written to
    the host. *)
Theorem malformed_report_handling
  (t : Topic) (p : Payload) (report : string) (s : Sys) :
  payload_text p = Some report ->
  malformed report ->
  let r := volume_updated (mkMessage t p) s in
  outcome r = Return tt /\
  snapshots (emitted r) = [] /\
  _max_db (ent (final r)) = _max_db (ent s) /\
  ((List.length (fields report) < 4)%nat -> final r = s /\ emitted r = []) /\
  ((4 <= List.length (fields report))%nat -> emitted r = [parse_warning]) /\
  ((4 <= List.length (fields report))%nat ->
   non_numeric_field report 2 -> final r = s).
Proof.
  intros Htext Hbad. cbv zeta.
  destruct (le_lt_dec 4 (List.length (fields report))) as [Hlen | Hlen].
  - destruct (four_fields _ Hlen) as (a & b & c & d & rest & Hf).
    destruct s as [e w].
    rewrite (volume_updated_run t p report a b c d rest e w Htext Hf).
    assert (Hnone : float_of_str b = None \/ float_of_str c = None \/
                    float_of_str d = None).
    { destruct Hbad as [Hshort | [H | [H | H]]]; [lia | | | ];
        destruct H as (f & Hnth & Hnum); rewrite Hf in Hnth;
        cbn in Hnth; injection Hnth as <-; auto. }
    assert (H2 : non_numeric_field report 2 -> float_of_str b = None).
    { intros (f & Hnth & Hnum). rewrite Hf in Hnth. cbn in Hnth.
      now injection Hnth as <-. }
    destruct (float_of_str b) as [v|].
    + destruct (float_of_str c) as [lo|].
      * destruct (float_of_str d) as [hi|].
        -- destruct Hnone as [H | [H | H]]; discriminate.
        -- cbn. repeat split; auto; try lia.
           intros _ H. specialize (H2 H). discriminate.
      * cbn. repeat split; auto; try lia.
        intros _ H. specialize (H2 H). discriminate.
    + cbn. repeat split; auto; lia.
  - rewrite (volume_updated_short t p report s Htext Hlen).
    cbn. repeat split; auto; lia.
Qed.

(** C3, as the handlers have it: a report is stored without any range
    check.  After a well-formed report all three values are known and
    [min_db <= volume_db <= max_db] holds exactly when the reported
    numbers satisfy [c <= b <= d]; a message on any other topic leaves
    the three values as they are. *)
Theorem report_stored_without_range_check
  (t : Topic) (p : Payload) (report a b c d : string) (rest : list string)
  (v lo hi : R) (s : Sys) :
  t = SsncPvol \/ t = VolumeFallback ->
  payload_text p = Some report ->
  fields report = a :: b :: c :: d :: rest ->
  float_of_str b = Some v ->
  float_of_str c = Some lo ->
  float_of_str d = Some hi ->
  let after := ent (final (deliver (mkMessage t p) s)) in
  envelope_known after /\
  (envelope_invariant after <-> lo <= v <= hi) /\
  (forall other q,
     envelope (ent (final (deliver (mkMessage (TopLevel other) q) s)))
     = envelope (ent s)).
Proof.
  intros Ht Htext Hf Hb Hc Hd. cbv zeta.
  destruct (deliver_volume t p s Ht) as (Hfin & _ & _).
  rewrite Hfin. split; [|split].
  - destruct s as [e w].
    rewrite (volume_updated_run t p report a b c d rest e w Htext Hf).
    rewrite Hb, Hc, Hd. cbn. unfold envelope_known. cbn.
    repeat split; discriminate.
  - destruct s as [e w].
    rewrite (volume_updated_run t p report a b c d rest e w Htext Hf).
    rewrite Hb, Hc, Hd. cbn. unfold envelope_invariant. cbn. tauto.
  - intros other q. apply deliver_top_level.
Qed.

End VolumeReports.

(** ** Volume conversion *)

Section Conversion.

Lemma py_min_Rmin (a b : R) : Py.min a b = Rmin a b.
Proof.
  unfold Py.min, Rmin.
  destruct (Rlt_dec b a), (Rle_dec a b); lra.
Qed.

Lemma py_max_Rmax (a b : R) : Py.max a b = Rmax a b.
Proof.
  unfold Py.max, Rmax.
  destruct (Rgt_dec b a), (Rle_dec a b); lra.
Qed.

Lemma ln_10_pos : 0 < ln 10.
Proof. rewrite <- ln_1. apply ln_increasing; lra. Qed.

Lemma pow10_pos (x : R) : 0 < Rpower 10 x.
Proof. unfold Rpower. apply exp_pos. Qed.

Lemma pow10_lt_1 (x : R) : x < 0 -> Rpower 10 x < 1.
Proof.
  intros Hx. unfold Rpower. rewrite <- exp_0.
  apply exp_increasing. pose proof ln_10_pos. nra.
Qed.

Lemma pow10_ge_1 (x : R) : 0 <= x -> 1 <= Rpower 10 x.
Proof.
  intros [Hx | <-]; unfold Rpower.
  - left. rewrite <- exp_0. apply exp_increasing. pose proof ln_10_pos. nra.
  - rewrite Rmult_0_l, exp_0. lra.
Qed.

Lemma pow10_le (x y : R) : x <= y -> Rpower 10 x <= Rpower 10 y.
Proof.
  intros [Hlt | ->]; [|lra]. left. unfold Rpower.
  apply exp_increasing. pose proof ln_10_pos. nra.
Qed.

Lemma pow10_nat (n : nat) : Rpower 10 (INR n) = 10 ^ n.
Proof. apply Rpower_pow. lra. Qed.

(** The largest float lies between [10^308] and [10^309]. *)
Lemma float_max_bounds : 10 ^ 308 <= Py.float_max < 10 ^ 309.
Proof.
  unfold Py.float_max. rewrite !pow_IZR, <- minus_IZR. split.
  - apply IZR_le, Z.leb_le. vm_compute. reflexivity.
  - apply IZR_lt, Z.ltb_lt. vm_compute. reflexivity.
Qed.

Lemma float_max_large : 1000000 <= Py.float_max.
Proof.
  apply Rle_trans with (10 ^ 308); [|apply float_max_bounds].
  rewrite pow_IZR. apply IZR_le, Z.leb_le. vm_compute. reflexivity.
Qed.

(** [10 ** x] returns the power up to the exponent 308. *)
Lemma pow10_returns (x : R) : x <= 308 -> Py.pow10 x = inr (Rpower 10 x).
Proof.
  intros Hx. unfold Py.pow10.
  destruct (Rle_dec (Rpower 10 x) Py.float_max) as [_ | H]; [reflexivity|].
  exfalso. apply H.
  apply Rle_trans with (10 ^ 308); [|apply float_max_bounds].
  rewrite <- pow10_nat. apply pow10_le.
  rewrite INR_IZR_INZ. exact Hx.
Qed.

(** [10 ** x] raises from the exponent 309 on. *)
Lemma pow10_overflows (x : R) : 309 <= x -> Py.pow10 x = inl Py.OverflowError.
Proof.
  intros Hx. unfold Py.pow10.
  destruct (Rle_dec (Rpower 10 x) Py.float_max) as [H | _]; [|reflexivity].
  exfalso. apply (Rlt_irrefl (10 ^ 309)).
  apply Rle_lt_trans with Py.float_max; [|apply float_max_bounds].
  apply Rle_trans with (Rpower 10 x); [|exact H].
  rewrite <- pow10_nat. apply pow10_le.
  rewrite INR_IZR_INZ. exact Hx.
Qed.


Lemma log10_positive (x : R) : 0 < x -> Py.log10 x = inr (ln x / ln 10).
Proof.
  intros Hx. unfold Py.log10. destruct (Rlt_dec 0 x); [reflexivity | contradiction].
Qed.

(** The clamped power below the maximum is the power itself. *)
Lemma clamp_pow10_below (x : R) :
  x < 0 -> Py.max 0 (Py.min 1 (Rpower 10 x)) = Rpower 10 x.
Proof.
  intros Hx. pose proof (pow10_pos x). pose proof (pow10_lt_1 x Hx).
  unfold Py.max, Py.min.
  destruct (Rlt_dec (Rpower 10 x) 1); [|lra].
  destruct (Rgt_dec (Rpower 10 x) 0); lra.
Qed.

(** The level of a volume at most 6160 dB above [max_db], with the clamp
    written as a case split. *)
Lemma db_to_percent_cases (e : Entity) (v hi : R) :
  _max_db e = Some hi ->
  v - hi <= 6160 ->
  _tapered_db_to_percent e (Some v)
  = inr (if Rlt_dec v hi then Rpower 10 ((v - hi) / 20) else 1).
Proof.
  intros Hhi Hbound. unfold _tapered_db_to_percent. rewrite Hhi.
  rewrite pow10_returns by lra. f_equal.
  destruct (Rlt_dec v hi) as [Hlt | Hge].
  - apply clamp_pow10_below. lra.
  - assert (Hx : 0 <= (v - hi) / 20) by lra.
    pose proof (pow10_ge_1 _ Hx). unfold Py.max, Py.min.
    destruct (Rlt_dec (Rpower 10 ((v - hi) / 20)) 1); [lra|].
    destruct (Rgt_dec 1 0); lra.
Qed.

(** From 6180 dB above [max_db] on the power is beyond the largest
    float. *)
Lemma db_to_percent_overflows (e : Entity) (v hi : R) :
  _max_db e = Some hi ->
  6180 <= v - hi ->
  _tapered_db_to_percent e (Some v) = inl Py.OverflowError.
Proof.
  intros Hhi Hfar. unfold _tapered_db_to_percent. rewrite Hhi.
  now rewrite pow10_overflows by lra.
Qed.

(** The fraction-to-dB conversion never raises: [math.log10] is only
    reached with a positive argument. *)
Lemma percent_to_db_returns (e : Entity) (percent : R) :
  exists target, _tapered_percent_to_db e percent = inr target.
Proof.
  unfold _tapered_percent_to_db.
  destruct (_max_db e) as [hi|]; [|eauto].
  destruct (Rle_dec percent 0) as [Hle | Hgt]; [eauto|].
  rewrite log10_positive by lra. eauto.
Qed.


(** C7: the displayed level is not clamped to 1 far above the maximum.
    With [volume_db], [min_db] and [max_db] all known and [volume_db]
    6180 dB or more above [max_db], [10 ** ((volume_db - max_db) / 20)]
    is beyond the largest float: reading [volume_level] raises
    [OverflowError] before [min(1.0, ...)] is applied, where the claim
    has the level 1.  The difference is taken within the range of a
    float; beyond it Python has an infinity, which is not modelled. *)
Theorem volume_level_overflows_far_above_max_db (e : Entity) (v lo hi : R) :
  _volume_db e = Some v ->
  _min_db e = Some lo ->
  _max_db e = Some hi ->
  6180 <= v - hi <= Py.float_max ->
  volume_level e = inl Py.OverflowError /\
  volume_level e <> inr (Some 1).
Proof.
  intros Hv Hlo Hhi [Hfar _].
  assert (Hraise : volume_level e = inl Py.OverflowError).
  { unfold volume_level. rewrite Hv, Hlo, Hhi.
    now rewrite (db_to_percent_overflows e v hi Hhi Hfar). }
  split; [exact Hraise|]. rewrite Hraise. discriminate.
Qed.

(** C8: the fraction-to-dB conversion gives [min_db], or -30 when
    [min_db] is unknown, if [max_db] is unknown or the fraction is not
    positive; otherwise it gives [max_db + 20 * log10(fraction)]. *)
Theorem percent_to_db_law (e : Entity) (percent : R) :
  (forall lo,
     _max_db e = None \/ percent <= 0 -> _min_db e = Some lo ->
     _tapered_percent_to_db e percent = inr lo) /\
  (_max_db e = None \/ percent <= 0 -> _min_db e = None ->
   _tapered_percent_to_db e percent = inr (-30)) /\
  (forall hi,
     _max_db e = Some hi -> 0 < percent ->
     _tapered_percent_to_db e percent = inr (hi + 20 * (ln percent / ln 10))).
Proof.
  unfold _tapered_percent_to_db. repeat split.
  - intros lo H Hlo. rewrite Hlo.
    destruct (_max_db e); [|reflexivity].
    destruct (Rle_dec percent 0); [reflexivity|].
    destruct H as [H | H]; [discriminate | lra].
  - intros H Hlo. rewrite Hlo.
    destruct (_max_db e); [|reflexivity].
    destruct (Rle_dec percent 0); [reflexivity|].
    destruct H as [H | H]; [discriminate | lra].
  - intros hi Hhi Hp. rewrite Hhi.
    destruct (Rle_dec percent 0); [lra|].
    now rewrite log10_positive.
Qed.

End Conversion.

(** ** Closed-loop volume setting *)

Section ClosedLoop.

Context {host : Host}.

Lemma commands_app (a b : list Event) :
  commands (a ++ b) = (commands a ++ commands b)%list.
Proof.
  induction a as [|ev a IH]; [reflexivity|].
  destruct ev; cbn; now rewrite IH.
Qed.

Lemma bind_return {A B : Type} (m : M A) (k : A -> M B) (s : Sys) (a : A) :
  outcome (m s) = Return a ->
  bind m k s =
  mkRun (final (k a (final (m s))))
        (emitted (m s) ++ emitted (k a (final (m s))))
        (outcome (k a (final (m s)))).
Proof.
  intros H. unfold bind. destruct (m s) as [f ev o]. cbn in H |- *.
  rewrite H. now destruct (k a f).
Qed.

Lemma bind_raise {A B : Type} (m : M A) (k : A -> M B) (s : Sys) (ex : Py.exn) :
  outcome (m s) = Raise ex ->
  bind m k s = mkRun (final (m s)) (emitted (m s)) (Raise ex).
Proof.
  intros H. unfold bind. destruct (m s) as [f ev o]. cbn in H |- *.
  now rewrite H.
Qed.

Lemma deliver_all_keeps (msgs : list ReceiveMessage) (s : Sys) :
  let r := deliver_all msgs s in
  commands (emitted r) = [] /\
  (volume_known s -> volume_known (final r)) /\
  outcome r = Return tt.
Proof.
  revert s. induction msgs as [|msg rest IH]; intros s.
  - cbn. auto.
  - cbv zeta.
    change (deliver_all (msg :: rest) s)
      with (bind (deliver msg) (fun _ => deliver_all rest) s).
    destruct (deliver_keeps msg s) as (_ & Hc & Hk & Ho).
    rewrite (bind_return _ _ _ tt Ho). cbn [final emitted outcome].
    destruct (IH (final (deliver msg s))) as (Hc' & Hk' & Ho').
    rewrite commands_app, Hc, Hc'. unfold volume_known in *. auto.
Qed.

Lemma suspend_keeps (a : Await) (s : Sys) :
  let r := suspend a s in
  commands (emitted r) = [] /\
  (volume_known s -> volume_known (final r)) /\
  outcome r = Return (failed (snd (world_await (world s) a))).
Proof.
  unfold suspend.
  destruct (world_await (world s) a) as [w resumption]. cbn [snd].
  pose proof (deliver_all_keeps (inbound resumption) (mkSys (ent s) w)) as H.
  destruct (deliver_all (inbound resumption) (mkSys (ent s) w)) as [f ev o].
  cbn in H |- *. destruct H as (Hc & Hk & _). auto.
Qed.

Lemma asyncio_sleep_keeps (d : R) (s : Sys) :
  let r := asyncio_sleep d s in
  commands (emitted r) = [] /\
  (volume_known s -> volume_known (final r)) /\
  outcome r = Return tt.
Proof.
  unfold asyncio_sleep.
  rewrite (bind_return (emit (Sleep d)) _ s tt eq_refl).
  cbn [final emitted outcome emit].
  destruct (suspend_keeps (AwaitSleep d) s) as (Hc & Hk & Ho).
  rewrite (bind_return _ _ s _ Ho). cbn [final emitted outcome ret].
  rewrite !commands_app, Hc. cbn. auto.
Qed.

Lemma send_remote_command_keeps (c : Command) (s : Sys) :
  let r := _send_remote_command c s in
  commands (emitted r) = [c] /\
  (volume_known s -> volume_known (final r)) /\
  (outcome r = Return tt \/ outcome r = Raise Py.PublishError).
Proof.
  unfold _send_remote_command, async_publish, log.
  rewrite (bind_return (emit (Log DEBUG _)) _ s tt eq_refl).
  cbn [final emitted outcome emit].
  rewrite (bind_return (emit (Publish c)) _ s tt eq_refl).
  cbn [final emitted outcome emit].
  destruct (suspend_keeps (AwaitPublish c) s) as (Hc & Hk & Ho).
  rewrite (bind_return _ _ s _ Ho). cbn [final emitted outcome].
  destruct (failed (snd (world_await (world s) (AwaitPublish c))));
    cbn [final emitted outcome raise ret];
    rewrite !commands_app, Hc; cbn; auto.
Qed.

(** The stop command is the other way to [IDLE]: once the publish has
    gone through, the update is the one of [_set_state], and the last
    state written to the host is idle with the metadata cleared. *)
Lemma async_media_stop_clears (s : Sys) :
  let r := async_media_stop s in
  outcome r = Raise Py.PublishError \/
  (outcome r = Return tt /\
   _player_state (ent (final r)) = IDLE /\
   metadata (ent (final r)) = (None, None, None, None) /\
   exists evs, emitted r = (evs ++ [WriteHaState (ent (final r))])%list).
Proof.
  cbv zeta. unfold async_media_stop, _send_command_update_state.
  destruct (send_remote_command_keeps STOP s) as (_ & _ & [Ho | Ho]).
  - right. rewrite (bind_return _ _ s tt Ho).
    destruct (final (_send_remote_command STOP s)) as [e w].
    rewrite set_state_run. cbn [final emitted outcome ent].
    repeat split.
    exists (emitted (_send_remote_command STOP s)
            ++ [Log DEBUG "Setting state to '%s'."])%list.
    now rewrite <- app_assoc.
  - left. now rewrite (bind_raise _ _ s _ Ho).
Qed.

(** A pass that finds the volume within the tolerance breaks at once. *)
Lemma feedback_pass_reached (target_db current_db : R) (s : Sys) :
  _volume_db (ent s) = Some current_db ->
  Rabs (target_db - current_db) <= tolerance ->
  feedback_pass target_db s = mkRun s [reached_debug] (Return Break).
Proof.
  intros Hv Hd. unfold feedback_pass, bind, getattr.
  cbn [final emitted outcome]. rewrite Hv.
  destruct (Rle_dec (Rabs (target_db - current_db)) tolerance); [|contradiction].
  reflexivity.
Qed.

(** A pass that finds the volume outside the tolerance sends one command
    towards the target and sleeps. *)
Lemma feedback_pass_step (target_db current_db : R) (s : Sys) :
  _volume_db (ent s) = Some current_db ->
  Rabs (target_db - current_db) > tolerance ->
  let pass := feedback_pass target_db s in
  commands (emitted pass) = [command_towards target_db current_db] /\
  volume_known (final pass) /\
  (outcome pass = Return Again \/ outcome pass = Raise Py.PublishError).
Proof.
  intros Hv Hd. cbv zeta.
  assert (Hk : volume_known s) by (unfold volume_known; rewrite Hv; discriminate).
  unfold feedback_pass.
  rewrite (bind_return _ _ s (Some current_db)) by (cbn; now rewrite Hv).
  cbn [final emitted outcome getattr app].
  destruct (Rle_dec (Rabs (target_db - current_db)) tolerance); [lra|].
  assert (Hcmd : (if Rgt_dec (target_db - current_db) 0
                  then async_volume_up else async_volume_down)
                 = _send_remote_command (command_towards target_db current_db)).
  { unfold command_towards, async_volume_up, async_volume_down.
    destruct (Rgt_dec (target_db - current_db) 0),
             (Rgt_dec target_db current_db); try reflexivity; lra. }
  rewrite Hcmd.
  destruct (send_remote_command_keeps (command_towards target_db current_db) s)
    as (Hc & Hkeep & [Ho | Ho]).
  - rewrite (bind_return _ _ s tt Ho). cbn [final emitted outcome].
    set (s1 := final (_send_remote_command _ s)) in *.
    destruct (asyncio_sleep_keeps delay s1) as (Hc' & Hkeep' & Ho').
    rewrite (bind_return _ _ s1 tt Ho'). cbn [final emitted outcome ret].
    rewrite !commands_app, Hc, Hc'. cbn. auto.
  - rewrite (bind_raise _ _ s _ Ho). cbn [final emitted outcome].
    rewrite Hc. auto.
Qed.

(** The same pass as an equation: the command, then the sleep. *)
Lemma feedback_pass_step_run (target_db current_db : R) (s : Sys) :
  _volume_db (ent s) = Some current_db ->
  Rabs (target_db - current_db) > tolerance ->
  feedback_pass target_db s =
  bind (_send_remote_command (command_towards target_db current_db))
       (fun _ => bind (asyncio_sleep delay) (fun _ => ret Again)) s.
Proof.
  intros Hv Hd. unfold feedback_pass.
  rewrite (bind_return _ _ s (Some current_db)) by (cbn; now rewrite Hv).
  cbn [final emitted outcome getattr app].
  destruct (Rle_dec (Rabs (target_db - current_db)) tolerance); [lra|].
  unfold command_towards, async_volume_up, async_volume_down.
  destruct (Rgt_dec (target_db - current_db) 0),
           (Rgt_dec target_db current_db); try lra;
    destruct (bind _ _ s); reflexivity.
Qed.

(** A pass that asks for another one hands over to the loop with one
    attempt more and one pass less. *)
Lemma feedback_loop_again (target_db : R) (budget attempts : nat) (s : Sys) :
  outcome (feedback_pass target_db s) = Return Again ->
  let pass := feedback_pass target_db s in
  let l := feedback_loop target_db budget (S attempts) (final pass) in
  feedback_loop target_db (S budget) attempts s =
  mkRun (final l) (emitted pass ++ emitted l) (outcome l).
Proof.
  intros Ho. cbv zeta.
  change (feedback_loop target_db (S budget) attempts s)
    with (bind (feedback_pass target_db)
            (fun pass => match pass with
                         | Break => ret (attempts, Broke)
                         | Again => feedback_loop target_db budget (S attempts)
                         end) s).
  now rewrite (bind_return _ _ s Again Ho).
Qed.


(** With the envelope known, a request is the start line followed by the
    loop with the full budget. *)
Lemma set_volume_runs_loop (volume target_db : R) (s : Sys) :
  envelope_known (ent s) ->
  _tapered_percent_to_db (ent s) volume = inr target_db ->
  let r := async_set_volume_level volume s in
  let l := feedback_loop target_db max_attempts 0 s in
  final r = final l /\
  emitted r = start_debug :: emitted l /\
  outcome r = match outcome l with
              | Return _ => Return tt
              | Raise ex => Raise ex
              end.
Proof.
  intros (Hv & Hlo & Hhi) Ht. cbv zeta.
  destruct s as [e w]. cbn [ent] in *.
  unfold async_set_volume_level, bind, getattr, log, emit.
  cbn [final emitted outcome ent].
  destruct (_min_db e) as [lo|]; [|contradiction].
  destruct (_max_db e) as [hi|]; [|contradiction].
  cbn [final emitted outcome ent app].
  destruct (_volume_db e) as [v|]; [|contradiction].
  cbn [final emitted outcome ent app]. rewrite Ht.
  cbn [final emitted outcome ent app lift_sum format_2f ret].
  destruct (feedback_loop target_db max_attempts 0 (mkSys e w)) as [f ev o].
  destruct o as [a | ex]; cbn [final emitted outcome ent app ret];
    rewrite ?app_nil_r; auto.
Qed.


(** C9: a request made while [min_db], [max_db] or the current volume is
    unknown ends after one warning: the state and the world are as
    before, no command is published and nothing is raised. *)
Theorem set_volume_with_unknown_envelope_aborts (volume : R) (s : Sys) :
  _min_db (ent s) = None \/ _max_db (ent s) = None \/ _volume_db (ent s) = None ->
  let r := async_set_volume_level volume s in
  final r = s /\
  outcome r = Return tt /\
  commands (emitted r) = [] /\
  exists fmt, emitted r = [Log WARNING fmt].
Proof.
  intros H. cbv zeta. destruct s as [e w]. cbn [ent] in H.
  unfold async_set_volume_level, bind, getattr, log, emit.
  cbn [final emitted outcome ent].
  destruct (_min_db e) as [lo|].
  - destruct (_max_db e) as [hi|].
    + cbn [final emitted outcome ent app].
      destruct (_volume_db e) as [v|].
      * destruct H as [H | [H | H]]; discriminate.
      * cbn. repeat split; eauto.
    + cbn. repeat split; eauto.
  - cbn. repeat split; eauto.
Qed.

End ClosedLoop.

(** ** The properties on a concrete host

    Counterexamples, witnesses and the scenarios of the specification, on
    the scripted host of the examples. *)

Section Scenarios.

Import Example.

#[local] Existing Instance scripted_host.

Local Abbreviation scripted e w := (@mkSys scripted_host e (w : Script)).
Local Abbreviation silent := (@nil (list ReceiveMessage)).

(** A decimal literal read as a mantissa [m] with [k] fraction digits is
    the number [m / 10^k]. *)
Lemma decimal_float_value (s : string) (m : Z) (k : nat) (den : Z) (x : R) :
  parse_decimal s = Some (m, k) ->
  (10 ^ Z.of_nat k)%Z = den ->
  den <> 0%Z ->
  x * IZR den = IZR m ->
  decimal_float s = Some x.
Proof.
  intros Hp Hden Hnz Hx. unfold decimal_float. rewrite Hp. cbn [option_map].
  f_equal. unfold decimal_to_R. cbn [fst snd]. rewrite Hden, <- Hx.
  field. now apply not_0_IZR.
Qed.

Ltac decimal m k :=
  apply (decimal_float_value _ m k (10 ^ Z.of_nat k)%Z);
  [ vm_compute; reflexivity | reflexivity | vm_compute; discriminate
  | let d := eval vm_compute in (10 ^ Z.of_nat k)%Z in
    change (10 ^ Z.of_nat k)%Z with d; lra ].

Lemma float_0 : decimal_float "0" = Some 0.
Proof. decimal 0%Z 0%nat. Qed.
Lemma float_1 : decimal_float "1" = Some 1.
Proof. decimal 1%Z 0%nat. Qed.
Lemma float_5 : decimal_float "5" = Some 5.
Proof. decimal 5%Z 0%nat. Qed.
Lemma float_7000 : decimal_float "7000" = Some 7000.
Proof. decimal 7000%Z 0%nat. Qed.
Lemma float_0_0 : decimal_float "0.0" = Some 0.
Proof. decimal 0%Z 1%nat. Qed.
Lemma float_m1_0 : decimal_float "-1.0" = Some (-1).
Proof. decimal (-10)%Z 1%nat. Qed.
Lemma float_m15_0 : decimal_float "-15.0" = Some (-15).
Proof. decimal (-150)%Z 1%nat. Qed.
Lemma float_m30_0 : decimal_float "-30.0" = Some (-30).
Proof. decimal (-300)%Z 1%nat. Qed.
Lemma float_m30 : decimal_float "-30" = Some (-30).
Proof. decimal (-30)%Z 0%nat. Qed.
Lemma float_m10 : decimal_float "-10" = Some (-10).
Proof. decimal (-10)%Z 0%nat. Qed.
Lemma float_x : decimal_float "x" = None.
Proof. reflexivity. Qed.

(** C1 fails as stated: the report ["1,2,3"] has three fields, so it is
    malformed, and the handler logs nothing for it. *)
Lemma short_report_is_not_logged :
  malformed "1,2,3" /\
  ~ malformed_report_logged_and_ignored (pvol "1,2,3") quiet.
Proof.
  split.
  - left. cbn. lia.
  - intros ((level & fmt & Hin) & _). cbn in Hin. exact Hin.
Qed.

(** Beside C1: when field 2 is a number and field 3
    is not, the assignment of [volume_db] has already been made when
    [float] fails on field 3. *)
Example third_field_failure_keeps_first_assignment :
  let r := volume_updated (pvol "0,-10,x,0") quiet in
  malformed "0,-10,x,0" /\
  _volume_db (ent (final r)) = Some (-10) /\
  _min_db (ent (final r)) = None /\
  emitted r = [parse_warning] /\
  outcome r = Return tt.
Proof.
  cbv zeta. split.
  - right. right. left. exists "x". split; reflexivity.
  - unfold pvol, quiet.
    rewrite (volume_updated_run (host := scripted_host) SsncPvol
               (PStr "0,-10,x,0") "0,-10,x,0" "0" "-10" "x" "0" [] init
               (@nil (list ReceiveMessage)) eq_refl eq_refl).
    change (@float_of_str scripted_host) with decimal_float.
    rewrite float_m10, float_x. cbn. repeat split.
Qed.

(** C1, as the handler has it, on a report of three fields and on a report whose
    second field is not a number. *)
Lemma malformed_report_handling_witness :
  emitted (volume_updated (pvol "1,2,3") quiet) = [] /\
  final (volume_updated (pvol "0,x,-30,0") quiet) = quiet.
Proof.
  split.
  - assert (Hbad : malformed "1,2,3") by (left; cbn; lia).
    destruct (malformed_report_handling SsncPvol (PStr "1,2,3") "1,2,3" quiet
                eq_refl Hbad) as (_ & _ & _ & Hshort & _).
    apply Hshort. cbn. lia.
  - assert (Hbad : malformed "0,x,-30,0").
    { right. left. exists "x". split; reflexivity. }
    destruct (malformed_report_handling SsncPvol (PStr "0,x,-30,0") "0,x,-30,0"
                quiet eq_refl Hbad) as (_ & _ & _ & _ & _ & Hsecond).
    apply Hsecond.
    + cbn. lia.
    + exists "x". split; reflexivity.
Defined.

(** C3 fails as stated: from the initial state, where the invariant
    holds, the report ["0,5,0,1"] makes all three values known with
    [volume_db = 5] above [max_db = 1]. *)
Lemma report_outside_range_breaks_invariant :
  let after := ent (final (deliver (pvol "0,5,0,1") quiet)) in
  envelope_invariant (ent quiet) /\
  envelope_known after /\
  ~ envelope_invariant after.
Proof.
  cbv zeta. unfold pvol, quiet.
  rewrite (deliver_well_formed (host := scripted_host)
             SsncPvol (PStr "0,5,0,1") "0,5,0,1"
             "0" "5" "0" "1" [] 5 0 1 init (@nil (list ReceiveMessage))
             (or_introl eq_refl) eq_refl eq_refl float_5 float_0 float_1).
  cbn. split; [exact I|]. split.
  - unfold envelope_known. cbn. repeat split; discriminate.
  - unfold envelope_invariant. cbn. lra.
Qed.

(** C3, as the handlers have it, on the report of the specification's
    scenario. *)
Lemma report_stored_without_range_check_witness :
  let after := ent (final (deliver (pvol "12.0,-15.0,-30.0,0.0") quiet)) in
  envelope_invariant after.
Proof.
  cbv zeta.
  destruct (report_stored_without_range_check SsncPvol
              (PStr "12.0,-15.0,-30.0,0.0") "12.0,-15.0,-30.0,0.0"
              "12.0" "-15.0" "-30.0" "0.0" [] (-15) (-30) 0 quiet
              (or_introl eq_refl) eq_refl eq_refl float_m15_0 float_m30_0 float_0_0)
    as (_ & Hiff & _).
  apply Hiff. lra.
Defined.

(** C4 on the report of the specification's scenario. *)
Lemma well_formed_report_sets_envelope_witness :
  envelope (ent (final (deliver (pvol "12.0,-15.0,-30.0,0.0") quiet)))
  = (Some (-15), Some (-30), Some 0).
Proof.
  destruct (well_formed_report_sets_envelope SsncPvol
              (PStr "12.0,-15.0,-30.0,0.0") "12.0,-15.0,-30.0,0.0"
              "12.0" "-15.0" "-30.0" "0.0" [] (-15) (-30) 0 quiet
              (or_introl eq_refl) eq_refl eq_refl float_m15_0 float_m30_0 float_0_0)
    as (Hv & Hlo & Hhi & _).
  unfold envelope, pvol. now rewrite Hv, Hlo, Hhi.
Defined.



(** C7 on the state that the report ["0,7000,-30,0"] leaves behind:
    the level cannot be read. *)
Lemma volume_level_overflows_far_above_max_db_witness :
  volume_level (ent (final (deliver (pvol "0,7000,-30,0") quiet)))
  = inl Py.OverflowError.
Proof.
  unfold pvol, quiet.
  rewrite (deliver_well_formed (host := scripted_host)
             SsncPvol (PStr "0,7000,-30,0") "0,7000,-30,0"
             "0" "7000" "-30" "0" [] 7000 (-30) 0 init (@nil (list ReceiveMessage))
             (or_introl eq_refl) eq_refl eq_refl float_7000 float_m30 float_0).
  cbn [final ent].
  assert (Hfar : 6180 <= 7000 - 0 <= Py.float_max)
    by (pose proof float_max_large; lra).
  apply (volume_level_overflows_far_above_max_db
           (set_max_db (Some 0)
              (set_min_db (Some (-30)) (set_volume_db (Some 7000) init)))
           7000 (-30) 0 eq_refl eq_refl eq_refl Hfar).
Defined.

(** C8 at the fractions 0 and 1 with the envelope known, and with
    nothing known. *)
Lemma percent_to_db_law_witness :
  _tapered_percent_to_db (entity_at (-15)) 0 = inr (-30) /\
  _tapered_percent_to_db init 1 = inr (-30) /\
  _tapered_percent_to_db (entity_at (-15)) 1 = inr (0 + 20 * (ln 1 / ln 10)).
Proof.
  split; [|split].
  - apply (proj1 (percent_to_db_law (entity_at (-15)) 0) (-30));
      [right; lra | reflexivity].
  - apply (proj1 (proj2 (percent_to_db_law init 1)));
      [left; reflexivity | reflexivity].
  - apply (proj2 (proj2 (percent_to_db_law (entity_at (-15)) 1)) 0);
      [reflexivity | lra].
Defined.

(** C9 on the initial state, where nothing is known. *)
Lemma set_volume_with_unknown_envelope_aborts_witness :
  final (async_set_volume_level 1 quiet) = quiet /\
  commands (emitted (async_set_volume_level 1 quiet)) = [].
Proof.
  destruct (set_volume_with_unknown_envelope_aborts 1 quiet (or_introl eq_refl))
    as (Hfin & _ & Hcmd & _).
  split; assumption.
Defined.

(** C10 from a playing state with all metadata set. *)
Lemma set_state_idle_clears_metadata_atomically_witness :
  let playing :=
    mkSys (mkEntity PLAYING (Some (PStr "Song A")) (Some (PStr "Artist"))
             (Some (PStr "Album")) (Some (PBytes [])) None None None)
          (@nil (list ReceiveMessage)) in
  metadata (ent (final (_set_state IDLE playing))) = (None, None, None, None) /\
  metadata (ent (final (_set_state PAUSED playing))) = metadata (ent playing).
Proof.
  intros playing. split.
  - destruct (set_state_idle_clears_metadata_atomically IDLE (pvol EmptyString) playing)
      as (_ & _ & _ & _ & _ & Hidle & _).
    exact (Hidle eq_refl).
  - destruct (set_state_idle_clears_metadata_atomically PAUSED (pvol EmptyString) playing)
      as (_ & _ & _ & _ & _ & _ & Hother & _).
    apply Hother. discriminate.
Defined.

(** The scenario of the specification: play-start, a title, active-end. *)
Example play_title_idle_scenario :
  let s1 := final (deliver (mkMessage (TopLevel PLAY_START) (PStr EmptyString)) quiet) in
  let s2 := final (deliver (mkMessage (TopLevel TITLE) (PStr "Song A")) s1) in
  let s3 := final (deliver (mkMessage (TopLevel ACTIVE_END) (PStr EmptyString)) s2) in
  _player_state (ent s1) = PLAYING /\
  _title (ent s2) = Some (PStr "Song A") /\
  _player_state (ent s3) = IDLE /\ _title (ent s3) = None.
Proof. cbv zeta. repeat split; reflexivity. Qed.


(** The target of a request for full volume is [max_db], here 0 dB. *)
Lemma target_full_volume (v : R) :
  _tapered_percent_to_db (entity_at v) 1 = inr 0.
Proof.
  destruct (percent_to_db_law (entity_at v) 1) as (_ & _ & Hlaw).
  rewrite (Hlaw 0 eq_refl) by lra. rewrite ln_1. f_equal.
  unfold Rdiv. rewrite Rmult_0_l. lra.
Qed.

(** A command published while nothing arrives. *)
Lemma scripted_command (c : Command) (e : Entity) (later : Script) :
  _send_remote_command c (scripted e ([] :: later)) =
  mkRun (scripted e later) [Log DEBUG "Sending '%s' command"; Publish c] (Return tt).
Proof. reflexivity. Qed.

(** A command published in the world where nothing ever arrives. *)
Lemma scripted_command_silent (c : Command) (e : Entity) :
  _send_remote_command c (scripted e silent) =
  mkRun (scripted e silent)
        [Log DEBUG "Sending '%s' command"; Publish c] (Return tt).
Proof. reflexivity. Qed.

(** A sleep in the world where nothing ever arrives. *)
Lemma scripted_sleep_silent (e : Entity) :
  asyncio_sleep delay (scripted e silent) =
  mkRun (scripted e silent) [Sleep delay] (Return tt).
Proof. reflexivity. Qed.

(** A sleep during which one well-formed report arrives. *)
Lemma scripted_sleep_report (e : Entity) (report a b c d : string)
  (rest : list string) (v lo hi : R) (later : Script) :
  fields report = a :: b :: c :: d :: rest ->
  decimal_float b = Some v ->
  decimal_float c = Some lo ->
  decimal_float d = Some hi ->
  let e' := set_max_db (Some hi) (set_min_db (Some lo) (set_volume_db (Some v) e)) in
  asyncio_sleep delay (scripted e ([pvol report] :: later)) =
  mkRun (scripted e' later) [Sleep delay; volume_debug; WriteHaState e'] (Return tt).
Proof.
  intros Hf Hb Hc Hd. cbv zeta.
  pose proof (deliver_well_formed (host := scripted_host) SsncPvol (PStr report)
                report a b c d rest v lo hi e later
                (or_introl eq_refl) eq_refl Hf Hb Hc Hd) as Hrun.
  cbv zeta in Hrun.
  unfold asyncio_sleep, bind, emit, suspend, ret.
  cbn [world ent world_await scripted_host scripted_await inbound failed
       deliver_all].
  unfold bind, pvol. rewrite Hrun. reflexivity.
Qed.

(** A pass outside the tolerance that is answered by a report. *)
Lemma scripted_pass (target cur : R) (e : Entity) (report a b c d : string)
  (rest : list string) (v lo hi : R) (later : Script) :
  _volume_db e = Some cur ->
  Rabs (target - cur) > tolerance ->
  fields report = a :: b :: c :: d :: rest ->
  decimal_float b = Some v ->
  decimal_float c = Some lo ->
  decimal_float d = Some hi ->
  let e' := set_max_db (Some hi) (set_min_db (Some lo) (set_volume_db (Some v) e)) in
  feedback_pass target (scripted e ([] :: [pvol report] :: later)) =
  mkRun (scripted e' later)
        (unanswered_pass (command_towards target cur)
         ++ [volume_debug; WriteHaState e'])
        (Return Again).
Proof.
  intros Hv Hout Hf Hb Hc Hd. cbv zeta.
  rewrite (feedback_pass_step_run (host := scripted_host) target cur
             (scripted e ([] :: [pvol report] :: later)) Hv Hout).
  unfold bind. rewrite scripted_command.
  rewrite (scripted_sleep_report e report a b c d rest v lo hi later Hf Hb Hc Hd).
  reflexivity.
Qed.

(** A pass outside the tolerance that is not answered. *)
Lemma scripted_pass_silent (target cur : R) (e : Entity) :
  _volume_db e = Some cur ->
  Rabs (target - cur) > tolerance ->
  feedback_pass target (scripted e silent) =
  mkRun (scripted e silent)
        (unanswered_pass (command_towards target cur)) (Return Again).
Proof.
  intros Hv Hout.
  rewrite (feedback_pass_step_run (host := scripted_host) target cur
             (scripted e silent) Hv Hout).
  unfold bind. rewrite scripted_command_silent, scripted_sleep_silent.
  reflexivity.
Qed.

(** Without reports every pass is the same, and the loop uses up its
    budget. *)
Lemma silent_loop (target cur : R) (e : Entity) (budget attempts : nat) :
  _volume_db e = Some cur ->
  Rabs (target - cur) > tolerance ->
  feedback_loop target budget attempts (scripted e silent) =
  mkRun (scripted e silent)
        (List.concat (repeat (unanswered_pass (command_towards target cur)) budget)
         ++ [exhausted_warning])
        (Return ((budget + attempts)%nat, Exhausted)).
Proof.
  intros Hv Hout. revert attempts.
  induction budget as [|budget IH]; intros attempts.
  - unfold feedback_loop, bind, getattr. cbn [ent]. rewrite Hv. reflexivity.
  - pose proof (scripted_pass_silent target cur e Hv Hout) as Hpass.
    rewrite feedback_loop_again by now rewrite Hpass.
    rewrite Hpass. cbn [final emitted outcome]. rewrite IH.
    cbn [final emitted outcome repeat List.concat].
    rewrite <- app_assoc, Nat.add_succ_r. reflexivity.
Qed.

(** The commands of [n] unanswered passes. *)
Lemma commands_unanswered (c : Command) (n : nat) :
  commands (List.concat (repeat (unanswered_pass c) n)) = repeat c n.
Proof.
  induction n as [|n IH]; [reflexivity|].
  cbn [repeat List.concat]. rewrite commands_app, IH. reflexivity.
Qed.

(** More than half a decibel below the target is outside the tolerance. *)
Lemma outside_tolerance (target cur : R) :
  target - cur > 5 / 10 -> Rabs (target - cur) > tolerance.
Proof. intros Hd. unfold tolerance. rewrite Rabs_right; lra. Qed.

(** Below the target the command is volume up. *)
Lemma towards_up (target cur : R) :
  target > cur -> command_towards target cur = VOLUME_UP.
Proof.
  intros Hd. unfold command_towards.
  destruct (Rgt_dec target cur); [reflexivity | contradiction].
Qed.

(** A receiver that never reports: every pass sends volume up, and after
    50 passes the request gives up with the warning and returns. *)
Example unanswered_commands_exhaust_budget :
  let r := async_set_volume_level 1
             (scripted (entity_at (-2)) silent) in
  commands (emitted r) = repeat VOLUME_UP 50 /\
  outcome r = Return tt /\
  exists evs, emitted r = (evs ++ [exhausted_warning])%list.
Proof.
  cbv zeta.
  assert (Hknown : envelope_known (entity_at (-2)))
    by (unfold envelope_known; cbn; repeat split; discriminate).
  destruct (set_volume_runs_loop (host := scripted_host) 1 0
              (scripted (entity_at (-2)) silent)
              Hknown (target_full_volume (-2))) as (_ & Hem & Hout).
  rewrite (silent_loop 0 (-2) (entity_at (-2)) max_attempts 0 eq_refl)
    in Hem, Hout by (apply outside_tolerance; lra).
  cbn [final emitted outcome] in Hem, Hout.
  rewrite Hem, Hout. rewrite towards_up by lra. split; [|split].
  - cbn [commands start_debug]. rewrite commands_app, commands_unanswered.
    cbn [commands exhausted_warning]. rewrite app_nil_r. reflexivity.
  - reflexivity.
  - eexists (start_debug :: _). reflexivity.
Qed.

(** The scenario of the specification: the target is 0 dB, the current
    volume is -2 dB, and each command is answered with a report one
    decibel higher.  The request sends exactly two volume-up commands
    and ends with the volume at the target. *)
Example two_steps_up_scenario :
  let r := async_set_volume_level 1 (scripted (entity_at (-2)) two_steps_up) in
  commands (emitted r) = [VOLUME_UP; VOLUME_UP] /\
  outcome r = Return tt /\
  envelope (ent (final r)) = (Some 0, Some (-30), Some 0) /\
  world (final r) = [].
Proof.
  cbv zeta.
  assert (Hknown : envelope_known (entity_at (-2)))
    by (unfold envelope_known; cbn; repeat split; discriminate).
  destruct (set_volume_runs_loop (host := scripted_host) 1 0
              (scripted (entity_at (-2)) two_steps_up)
              Hknown (target_full_volume (-2))) as (Hfin & Hem & Hout).
  assert (Hloop :
    feedback_loop 0 max_attempts 0 (scripted (entity_at (-2)) two_steps_up) =
    mkRun (scripted (entity_at 0) silent)
          ((unanswered_pass VOLUME_UP ++ [volume_debug; WriteHaState (entity_at (-1))])
           ++ (unanswered_pass VOLUME_UP ++ [volume_debug; WriteHaState (entity_at 0)])
           ++ [reached_debug])
          (Return (2%nat, Broke))).
  { pose proof (scripted_pass 0 (-2) (entity_at (-2)) "0,-1.0,-30.0,0.0"
                  "0" "-1.0" "-30.0" "0.0" [] (-1) (-30) 0
                  [[]; [pvol "0,0.0,-30.0,0.0"]]
                  eq_refl (outside_tolerance 0 (-2) ltac:(lra)) eq_refl
                  float_m1_0 float_m30_0 float_0_0) as Hp1.
    cbv zeta in Hp1. rewrite towards_up in Hp1 by lra.
    pose proof (scripted_pass 0 (-1) (entity_at (-1)) "0,0.0,-30.0,0.0"
                  "0" "0.0" "-30.0" "0.0" [] 0 (-30) 0 []
                  eq_refl (outside_tolerance 0 (-1) ltac:(lra)) eq_refl
                  float_0_0 float_m30_0 float_0_0) as Hp2.
    cbv zeta in Hp2. rewrite towards_up in Hp2 by lra.
    unfold max_attempts, two_steps_up.
    rewrite feedback_loop_again by (rewrite Hp1; reflexivity).
    rewrite Hp1. cbn [final emitted outcome].
    change (set_max_db (Some 0) (set_min_db (Some (-30))
              (set_volume_db (Some (-1)) (entity_at (-2)))))
      with (entity_at (-1)).
    rewrite feedback_loop_again by (rewrite Hp2; reflexivity).
    rewrite Hp2. cbn [final emitted outcome].
    change (set_max_db (Some 0) (set_min_db (Some (-30))
              (set_volume_db (Some 0) (entity_at (-1)))))
      with (entity_at 0).
    assert (Hin : Rabs (0 - 0) <= tolerance)
      by (unfold tolerance; rewrite Rminus_diag, Rabs_R0; lra).
    pose proof (feedback_pass_reached (host := scripted_host) 0 0
                  (scripted (entity_at 0) silent)
                  eq_refl Hin) as Hp3.
    change (feedback_loop 0 48 2 (scripted (entity_at 0) silent))
      with (bind (feedback_pass 0)
              (fun pass => match pass with
                           | Break => ret (2%nat, Broke)
                           | Again => feedback_loop 0 47 3
                           end) (scripted (entity_at 0) silent)).
    unfold bind. rewrite Hp3. reflexivity. }
  rewrite Hloop in Hfin, Hem, Hout. cbn [final emitted outcome] in Hfin, Hem, Hout.
  rewrite Hfin, Hem, Hout. repeat split.
Qed.


End Scenarios.

(** * More of the entity *)

(** ** Routing of inbound messages *)

Section Routing.

Context {host : Host}.

(** X1: the five status topics.  Play-start and play-resume make the
    player playing, play-end and play-flush make it paused, active-end
    makes it idle, whatever the payload and the state before; the first
    four keep the metadata, active-end clears it; all five keep the
    envelope, write the new state to the host once and raise nothing. *)
Theorem status_messages_set_the_state (p : Payload) (s : Sys) :
  let run t := deliver (mkMessage (TopLevel t) p) s in
  let after t := ent (final (run t)) in
  _player_state (after PLAY_START) = PLAYING /\
  _player_state (after PLAY_RESUME) = PLAYING /\
  _player_state (after PLAY_END) = PAUSED /\
  _player_state (after PLAY_FLUSH) = PAUSED /\
  _player_state (after ACTIVE_END) = IDLE /\
  metadata (after ACTIVE_END) = (None, None, None, None) /\
  (forall t, In t [PLAY_START; PLAY_RESUME; PLAY_END; PLAY_FLUSH] ->
     metadata (after t) = metadata (ent s)) /\
  (forall t, In t [PLAY_START; PLAY_RESUME; PLAY_END; PLAY_FLUSH; ACTIVE_END] ->
     envelope (after t) = envelope (ent s) /\
     snapshots (emitted (run t)) = [after t] /\
     outcome (run t) = Return tt).
Proof.
  destruct s as [e w]. cbv zeta.
  repeat (split; [reflexivity|]). split.
  - intros t Ht. cbn in Ht.
    destruct Ht as [<- | [<- | [<- | [<- | []]]]]; reflexivity.
  - intros t Ht. cbn in Ht.
    destruct Ht as [<- | [<- | [<- | [<- | [<- | []]]]]];
      repeat split; reflexivity.
Qed.

(** X2: the three metadata topics.  A message on the artist, album or
    title topic stores its payload in that attribute and changes no
    other attribute; the playback state is not consulted, so a title
    that arrives while the player is idle is kept. *)
Theorem metadata_messages_store_the_payload (p : Payload) (s : Sys) :
  let after t := ent (final (deliver (mkMessage (TopLevel t) p) s)) in
  after ARTIST = set_artist (Some p) (ent s) /\
  after ALBUM = set_album (Some p) (ent s) /\
  after TITLE = set_title (Some p) (ent s) /\
  (_player_state (ent s) = IDLE ->
   _player_state (after TITLE) = IDLE /\ _title (after TITLE) = Some p).
Proof.
  destruct s as [e w]. cbv zeta. repeat (split; [reflexivity|]).
  intros Hidle. split; [exact Hidle | reflexivity].
Qed.

(** X3: the artwork callback.  A [bytes] payload, empty or not, becomes
    the image, nothing else changes, and the new state is written to the
    host once.  A non-empty [str] payload does not pass the formatting of
    the header: [ValueError] is raised before anything is logged or
    changed. *)
Theorem artwork_updated_by_payload_type
  (t : Topic) (b : list byte) (c : ascii) (txt : string) (s : Sys) :
  (let r := artwork_updated (mkMessage t (PBytes b)) s in
   ent (final r) = set_media_image (Some (PBytes b)) (ent s) /\
   world (final r) = world s /\
   snapshots (emitted r) = [ent (final r)] /\
   outcome r = Return tt) /\
  (let r := artwork_updated (mkMessage t (PStr (String c txt))) s in
   final r = s /\ emitted r = [] /\ outcome r = Raise Py.ValueError).
Proof.
  destruct s as [e w]. cbv zeta. repeat split; reflexivity.
Qed.

(** X4: the subscription table.  Eleven subscriptions are made, no topic
    twice, so a message runs at most one callback; the remote topic, on
    which the entity publishes its commands, is not among them, and a
    message on it has no effect at all. *)
Theorem each_topic_has_one_callback :
  List.length subscriptions = 11%nat /\
  NoDup (map fst subscriptions) /\
  ~ In (TopLevel REMOTE) (map fst subscriptions) /\
  (forall p s, deliver (mkMessage (TopLevel REMOTE) p) s = mkRun s [] (Return tt)).
Proof.
  split; [reflexivity|]. split; [|split].
  - cbn. repeat constructor; cbn; intuition discriminate.
  - cbn. intuition discriminate.
  - intros p [e w]. reflexivity.
Qed.

End Routing.

Section Parsing.

Context {host : Host}.

(** The number of fields is one more than the number of separators. *)
Lemma split_length (sep : ascii) (s : string) :
  List.length (Py.split sep s)
  = S (count_occ ascii_dec (list_ascii_of_string s) sep).
Proof.
  induction s as [|c rest IH]; [reflexivity|].
  cbn [Py.split list_ascii_of_string count_occ].
  destruct (Ascii.eqb_spec c sep) as [-> | Hne].
  - destruct (ascii_dec sep sep) as [_ | Hn]; [|contradiction].
    cbn [List.length]. now rewrite IH.
  - destruct (ascii_dec c sep) as [Heq | _]; [contradiction|].
    destruct (Py.split sep rest) as [|f fs]; [discriminate IH | exact IH].
Qed.

(** No field contains the separator. *)
Lemma split_fields_clean (sep : ascii) (s f : string) :
  In f (Py.split sep s) -> ~ In sep (list_ascii_of_string f).
Proof.
  revert f. induction s as [|c rest IH]; intros f Hin.
  - cbn in Hin. destruct Hin as [<- | []]. cbn. tauto.
  - cbn [Py.split] in Hin.
    destruct (Ascii.eqb_spec c sep) as [-> | Hne].
    + destruct Hin as [<- | Hin]; [cbn; tauto | now apply IH].
    + destruct (Py.split sep rest) as [|g gs].
      * destruct Hin as [<- | []]. cbn. intuition congruence.
      * destruct Hin as [<- | Hin].
        -- cbn. intros [Heq | Hin]; [congruence|].
           apply (IH g); [now left | exact Hin].
        -- apply IH. now right.
Qed.

(** X5: splitting loses nothing.  The fields of a text joined with the
    separator are the text again, no field contains the separator, and
    there is one field more than there are separators: so the empty
    text has one empty field, and a report has four fields or more
    exactly when it has three commas or more. *)
Theorem split_then_join (sep : ascii) (s : string) :
  String.concat (String sep EmptyString) (Py.split sep s) = s /\
  (forall f, In f (Py.split sep s) -> ~ In sep (list_ascii_of_string f)) /\
  List.length (Py.split sep s)
  = S (count_occ ascii_dec (list_ascii_of_string s) sep) /\
  Py.split sep EmptyString = [EmptyString].
Proof.
  split; [|split; [|split]].
  - induction s as [|c rest IH]; [reflexivity|].
    cbn [Py.split].
    pose proof (split_length sep rest) as Hl.
    destruct (Py.split sep rest) as [|g gs]; [discriminate Hl|].
    destruct (Ascii.eqb_spec c sep) as [-> | Hne].
    + change (String.concat (String sep EmptyString) (EmptyString :: g :: gs))
        with (String sep (String.concat (String sep EmptyString) (g :: gs))).
      now rewrite IH.
    + destruct gs as [|g' gs'].
      * cbn in IH |- *. now rewrite IH.
      * change (String.concat (String sep EmptyString) (String c g :: g' :: gs'))
          with (String c (String.concat (String sep EmptyString) (g :: g' :: gs'))).
        now rewrite IH.
  - intros f. apply split_fields_clean.
  - apply split_length.
  - reflexivity.
Qed.

(** X6: what becomes of a volume report.  A payload that cannot be
    decoded ends in one warning and changes nothing.  A text payload
    passes without any event exactly when it has fewer than three
    commas; otherwise the handler ends either in one warning or in the
    debug line followed by one state write, and it writes the state
    exactly when fields 2, 3 and 4 are all numbers.  Nothing is ever
    raised. *)
Theorem volume_report_outcomes (t : Topic) (p : Payload) (s : Sys) :
  let r := volume_updated (mkMessage t p) s in
  outcome r = Return tt /\
  match payload_text p with
  | None => emitted r = [parse_warning] /\ final r = s
  | Some report =>
      let commas := count_occ ascii_dec (list_ascii_of_string report) ","%char in
      (emitted r = [] <-> (commas < 3)%nat) /\
      ((3 <= commas)%nat ->
       emitted r = [parse_warning] \/
       emitted r = [volume_debug; WriteHaState (ent (final r))]) /\
      (notifies r <->
       exists a b c d rest v lo hi,
         fields report = a :: b :: c :: d :: rest /\
         float_of_str b = Some v /\
         float_of_str c = Some lo /\
         float_of_str d = Some hi)
  end.
Proof.
  cbv zeta. split; [apply volume_updated_returns|].
  destruct (payload_text p) as [report|] eqn:Htext.
  - pose proof (split_length ","%char report) as Hlen.
    fold (fields report) in Hlen.
    destruct (le_lt_dec 4 (List.length (fields report))) as [Hlong | Hshort].
    + destruct (four_fields _ Hlong) as (a & b & c & d & rest & Hf).
      destruct s as [e w].
      rewrite (volume_updated_run t p report a b c d rest e w Htext Hf).
      destruct (float_of_str b) as [v|] eqn:Hb;
        [destruct (float_of_str c) as [lo|] eqn:Hc;
         [destruct (float_of_str d) as [hi|] eqn:Hd|]|];
        cbn [final emitted outcome ent]; unfold notifies;
        cbn [final emitted outcome ent snapshots parse_warning volume_debug].
      * split; [split; [discriminate | lia]|]. split; [auto|].
        split; [|discriminate]. intros _.
        exists a, b, c, d, rest, v, lo, hi. auto.
      * split; [split; [discriminate | lia]|]. split; [auto|].
        split; [congruence|].
        intros (a' & b' & c' & d' & rest' & v' & lo' & hi' & Hf' & Hb' & Hc' & Hd').
        rewrite Hf in Hf'. injection Hf' as <- <- <- <- <-. congruence.
      * split; [split; [discriminate | lia]|]. split; [auto|].
        split; [congruence|].
        intros (a' & b' & c' & d' & rest' & v' & lo' & hi' & Hf' & Hb' & Hc' & Hd').
        rewrite Hf in Hf'. injection Hf' as <- <- <- <- <-. congruence.
      * split; [split; [discriminate | lia]|]. split; [auto|].
        split; [congruence|].
        intros (a' & b' & c' & d' & rest' & v' & lo' & hi' & Hf' & Hb' & Hc' & Hd').
        rewrite Hf in Hf'. injection Hf' as <- <- <- <- <-. congruence.
    + rewrite (volume_updated_short t p report s Htext Hshort).
      unfold notifies. cbn [final emitted outcome snapshots].
      split; [split; [lia | reflexivity]|]. split; [lia|].
      split; [congruence|].
      intros (a' & b' & c' & d' & rest' & _ & _ & _ & Hf' & _).
      rewrite Hf' in Hshort. cbn in Hshort. lia.
  - destruct p as [txt | bs]; [discriminate|].
    rewrite volume_updated_undecodable by exact Htext. auto.
Qed.

End Parsing.

Section Curve.

(** The power of a logarithm is the number again, without overflow up
    to [10^308]. *)
Lemma pow10_log10 (p : R) :
  0 < p -> p <= 10 ^ 308 -> Py.pow10 (ln p / ln 10) = inr p.
Proof.
  intros Hp Hbound.
  assert (Hvalue : Rpower 10 (ln p / ln 10) = p).
  { unfold Rpower.
    replace (ln p / ln 10 * ln 10) with (ln p)
      by (pose proof ln_10_pos; field; lra).
    now apply exp_ln. }
  unfold Py.pow10. rewrite Hvalue.
  destruct (Rle_dec p Py.float_max) as [_ | H]; [reflexivity|].
  exfalso. apply H.
  apply Rle_trans with (10 ^ 308); [exact Hbound | apply float_max_bounds].
Qed.


(** X8: a fraction converted to decibels and back.  With [max_db] known
    a positive fraction [p] has the target [max_db + 20 log10 p]; the
    level of that target is [p] when [p <= 1], and then the target is
    at most [max_db]; it is 1 when [p > 1], for every fraction up to
    [10^308].  A larger fraction never has a smaller target. *)
Theorem percent_db_percent_roundtrip (e : Entity) (hi p : R) :
  _max_db e = Some hi ->
  0 < p ->
  exists target,
    _tapered_percent_to_db e p = inr target /\
    (p <= 10 ^ 308 ->
     _tapered_db_to_percent e (Some target) = inr (Rmin 1 p)) /\
    (p <= 1 ->
     target <= hi /\ _tapered_db_to_percent e (Some target) = inr p) /\
    (forall q target',
       p <= q -> _tapered_percent_to_db e q = inr target' -> target <= target').
Proof.
  intros Hhi Hp.
  exists (hi + 20 * (ln p / ln 10)).
  assert (Ht : _tapered_percent_to_db e p = inr (hi + 20 * (ln p / ln 10))).
  { unfold _tapered_percent_to_db. rewrite Hhi.
    destruct (Rle_dec p 0); [lra|]. now rewrite log10_positive. }
  assert (Hback : p <= 10 ^ 308 ->
                  _tapered_db_to_percent e (Some (hi + 20 * (ln p / ln 10)))
                  = inr (Rmin 1 p)).
  { intros Hbound. unfold _tapered_db_to_percent. rewrite Hhi.
    replace ((hi + 20 * (ln p / ln 10) - hi) / 20) with (ln p / ln 10) by lra.
    rewrite (pow10_log10 p Hp Hbound). f_equal.
    rewrite py_min_Rmin, py_max_Rmax.
    unfold Rmax, Rmin. destruct (Rle_dec 1 p), (Rle_dec 0 1); try lra;
      destruct (Rle_dec 0 p); lra. }
  split; [exact Ht|]. split; [exact Hback|]. split.
  - intros Hle. split.
    + assert (Hln : ln p <= 0).
      { destruct Hle as [Hlt | ->]; [|rewrite ln_1; lra].
        left. rewrite <- ln_1. now apply ln_increasing. }
      pose proof ln_10_pos as H10.
      assert (Hinv : 0 < / ln 10) by now apply Rinv_0_lt_compat.
      assert (ln p / ln 10 <= 0) by (unfold Rdiv; nra).
      lra.
    + rewrite Hback.
      * f_equal. unfold Rmin. destruct (Rle_dec 1 p); lra.
      * apply Rle_trans with 1; [exact Hle|]. apply pow_R1_Rle. lra.
  - intros q target' Hpq Hq.
    unfold _tapered_percent_to_db in Hq. rewrite Hhi in Hq.
    destruct (Rle_dec q 0); [lra|].
    rewrite log10_positive in Hq by lra. injection Hq as <-.
    assert (Hln : ln p <= ln q).
    { destruct Hpq as [Hlt | ->]; [|lra]. left. now apply ln_increasing. }
    pose proof ln_10_pos as H10.
    assert (Hinv : 0 < / ln 10) by now apply Rinv_0_lt_compat.
    assert (ln p / ln 10 <= ln q / ln 10) by (unfold Rdiv; nra).
    lra.
Qed.


(** X22: the law of the displayed level within the range of a float.
    The level is [None] exactly when one of [volume_db], [min_db],
    [max_db] is unknown, so never a zero that stands for unknown.  With
    all three known and [volume_db] at most 6160 dB above [max_db] it is
    [10^((volume_db - max_db)/20)] clamped to [0, 1], which is 1 at or
    above [max_db].  Reading the level raises nothing but
    [OverflowError], and only with [volume_db] more than 6160 dB above
    [max_db]. *)
Theorem volume_level_within_float_range (e : Entity) :
  (volume_level e = inr None <->
   _volume_db e = None \/ _min_db e = None \/ _max_db e = None) /\
  (forall v lo hi,
     _volume_db e = Some v -> _min_db e = Some lo -> _max_db e = Some hi ->
     v - hi <= 6160 ->
     volume_level e = inr (Some (clamp (Rpower 10 ((v - hi) / 20)) 0 1)) /\
     (hi <= v -> volume_level e = inr (Some 1))) /\
  (forall ex,
     volume_level e = inl ex ->
     ex = Py.OverflowError /\
     exists v hi,
       _volume_db e = Some v /\ _max_db e = Some hi /\ 6160 < v - hi).
Proof.
  split; [|split].
  - unfold volume_level.
    destruct (_volume_db e) as [v|], (_min_db e) as [lo|], (_max_db e) as [hi|];
      try (split; [auto | intros; reflexivity]).
    split.
    + destruct (_tapered_db_to_percent e (Some v)); discriminate.
    + intros [H | [H | H]]; discriminate.
  - intros v lo hi Hv Hlo Hhi Hbound.
    assert (Hlevel : volume_level e
                     = inr (Some (clamp (Rpower 10 ((v - hi) / 20)) 0 1))).
    { unfold volume_level, _tapered_db_to_percent. rewrite Hv, Hlo, Hhi.
      rewrite pow10_returns by lra.
      unfold clamp. now rewrite py_max_Rmax, py_min_Rmin. }
    split; [exact Hlevel|].
    intros Hle. unfold volume_level. rewrite Hv, Hlo, Hhi.
    rewrite (db_to_percent_cases e v hi Hhi Hbound).
    destruct (Rlt_dec v hi); [lra | reflexivity].
  - intros ex Hraise. unfold volume_level in Hraise.
    destruct (_volume_db e) as [v|] eqn:Hv; [|discriminate].
    destruct (_min_db e) as [lo|]; [|discriminate].
    destruct (_max_db e) as [hi|] eqn:Hhi; [|discriminate].
    destruct (Rle_dec (v - hi) 6160) as [Hbound | Hfar].
    + rewrite (db_to_percent_cases e v hi Hhi Hbound) in Hraise. discriminate.
    + unfold _tapered_db_to_percent in Hraise. rewrite Hhi in Hraise.
      unfold Py.pow10 in Hraise.
      destruct (Rle_dec (Rpower 10 ((v - hi) / 20)) Py.float_max);
        [discriminate|].
      injection Hraise as <-. split; [reflexivity|].
      exists v, hi. repeat split; lra.
Qed.

End Curve.

Section Commands.

Context {host : Host}.

(** A command raises exactly when the world lets its publish fail. *)
Lemma send_remote_command_outcome (c : Command) (s : Sys) :
  outcome (_send_remote_command c s)
  = if failed (snd (world_await (world s) (AwaitPublish c)))
    then Raise Py.PublishError else Return tt.
Proof.
  unfold _send_remote_command, async_publish, log.
  rewrite (bind_return (emit (Log DEBUG _)) _ s tt eq_refl).
  cbn [final emitted outcome emit].
  rewrite (bind_return (emit (Publish c)) _ s tt eq_refl).
  cbn [final emitted outcome emit].
  destruct (suspend_keeps (AwaitPublish c) s) as (_ & _ & Ho).
  rewrite (bind_return _ _ s _ Ho). cbn [final emitted outcome].
  now destruct (failed (snd (world_await (world s) (AwaitPublish c)))).
Qed.

(** While nothing arrives, a suspension leaves the entity alone. *)
Lemma suspend_nothing_arrives (a : Await) (s : Sys) :
  inbound (snd (world_await (world s) a)) = [] ->
  ent (final (suspend a s)) = ent s /\ emitted (suspend a s) = [].
Proof.
  unfold suspend. destruct (world_await (world s) a) as [w resumption].
  cbn [snd]. intros ->. cbn. auto.
Qed.

(** A command sent while nothing arrives. *)
Lemma send_remote_command_nothing_arrives (c : Command) (s : Sys) :
  inbound (snd (world_await (world s) (AwaitPublish c))) = [] ->
  ent (final (_send_remote_command c s)) = ent s /\
  emitted (_send_remote_command c s)
  = [Log DEBUG "Sending '%s' command"; Publish c].
Proof.
  intros Hquiet.
  destruct (suspend_nothing_arrives _ _ Hquiet) as (Hent & Hem).
  destruct (suspend_keeps (AwaitPublish c) s) as (_ & _ & Ho).
  unfold _send_remote_command, async_publish, log.
  rewrite (bind_return (emit (Log DEBUG _)) _ s tt eq_refl).
  cbn [final emitted outcome emit].
  rewrite (bind_return (emit (Publish c)) _ s tt eq_refl).
  cbn [final emitted outcome emit].
  rewrite (bind_return _ _ s _ Ho). cbn [final emitted outcome].
  rewrite Hem.
  destruct (failed (snd (world_await (world s) (AwaitPublish c))));
    cbn [final emitted outcome raise ret app]; auto.
Qed.

(** X10: the relative and skip commands.  Volume up, volume down, next
    and previous each publish their one command and nothing else; they
    raise exactly when the publish fails; and they assign nothing: while
    no message arrives during the publish the entity is as before and
    no state is written to the host. *)
Theorem relative_commands_only_publish (s : Sys) :
  async_volume_up = _send_remote_command VOLUME_UP /\
  async_volume_down = _send_remote_command VOLUME_DOWN /\
  async_media_next_track = _send_remote_command SKIP_NEXT /\
  async_media_previous_track = _send_remote_command SKIP_PREVIOUS /\
  forall c,
    let r := _send_remote_command c s in
    commands (emitted r) = [c] /\
    outcome r = (if failed (snd (world_await (world s) (AwaitPublish c)))
                 then Raise Py.PublishError else Return tt) /\
    (inbound (snd (world_await (world s) (AwaitPublish c))) = [] ->
     ent (final r) = ent s /\ snapshots (emitted r) = []).
Proof.
  repeat (split; [reflexivity|]). intros c. cbv zeta.
  destruct (send_remote_command_keeps c s) as (Hc & _ & _).
  split; [exact Hc|]. split; [apply send_remote_command_outcome|].
  intros Hquiet.
  destruct (send_remote_command_nothing_arrives c s Hquiet) as (Hent & Hem).
  rewrite Hem. auto.
Qed.

(** A command followed by the local update of the state. *)
Lemma send_command_update_state_cases
  (c : Command) (target : MediaPlayerState) (s : Sys) :
  let r := _send_command_update_state c target s in
  let sent := _send_remote_command c s in
  commands (emitted r) = [c] /\
  (failed (snd (world_await (world s) (AwaitPublish c))) = false ->
   outcome r = Return tt /\
   _player_state (ent (final r)) = target /\
   envelope (ent (final r)) = envelope (ent (final sent)) /\
   (target = IDLE -> metadata (ent (final r)) = (None, None, None, None)) /\
   (target <> IDLE -> metadata (ent (final r)) = metadata (ent (final sent))) /\
   exists evs, emitted r = (evs ++ [WriteHaState (ent (final r))])%list) /\
  (failed (snd (world_await (world s) (AwaitPublish c))) = true ->
   outcome r = Raise Py.PublishError /\
   final r = final sent /\
   emitted r = emitted sent).
Proof.
  cbv zeta.
  pose proof (send_remote_command_outcome c s) as Ho.
  destruct (send_remote_command_keeps c s) as (Hc & _ & _).
  unfold _send_command_update_state.
  destruct (failed (snd (world_await (world s) (AwaitPublish c)))).
  - rewrite (bind_raise _ _ s _ Ho). cbn [final emitted outcome].
    split; [exact Hc|]. split; [discriminate|]. auto.
  - rewrite (bind_return _ _ s tt Ho). cbn [final emitted outcome].
    destruct (final (_send_remote_command c s)) as [e w].
    rewrite set_state_run. cbv zeta. cbn [final emitted outcome ent].
    split.
    + rewrite commands_app, Hc. now destruct target.
    + split; [|discriminate]. intros _.
      split; [reflexivity|].
      split; [now destruct target|].
      split; [now destruct target|].
      split; [intros ->; reflexivity|].
      split; [intros Hne; destruct target; [contradiction | reflexivity..]|].
      exists (emitted (_send_remote_command c s)
              ++ [Log DEBUG "Setting state to '%s'."])%list.
      now rewrite <- app_assoc.
Qed.

(** X11: play, pause and stop.  Each publishes its command first.  When
    the publish goes through, the playback state is set to playing,
    paused or idle without waiting for the receiver, the envelope is as
    the publish left it, the new state is the last thing written to the
    host, and stop clears the metadata.  When the publish fails, the
    exception goes to the caller and the state is not touched. *)
Theorem transport_commands_update_optimistically
  (c : Command) (target : MediaPlayerState) (s : Sys) :
  async_media_play = _send_command_update_state PLAY PLAYING /\
  async_media_pause = _send_command_update_state PAUSE PAUSED /\
  async_media_stop = _send_command_update_state STOP IDLE /\
  let r := _send_command_update_state c target s in
  let sent := _send_remote_command c s in
  commands (emitted r) = [c] /\
  (failed (snd (world_await (world s) (AwaitPublish c))) = false ->
   outcome r = Return tt /\
   _player_state (ent (final r)) = target /\
   envelope (ent (final r)) = envelope (ent (final sent)) /\
   (target = IDLE -> metadata (ent (final r)) = (None, None, None, None)) /\
   (target <> IDLE -> metadata (ent (final r)) = metadata (ent (final sent))) /\
   exists evs, emitted r = (evs ++ [WriteHaState (ent (final r))])%list) /\
  (failed (snd (world_await (world s) (AwaitPublish c))) = true ->
   outcome r = Raise Py.PublishError /\
   final r = final sent /\
   emitted r = emitted sent).
Proof.
  repeat (split; [reflexivity|]).
  apply send_command_update_state_cases.
Qed.

(** X12: the play/pause toggle.  The command is chosen from the state at
    the moment of the call: pause when playing, play otherwise.  When it
    goes through the state is paused, respectively playing; so a second
    toggle right after sends the other command. *)
Theorem play_pause_toggles (s : Sys) :
  let playing := MediaPlayerState_eqb (_player_state (ent s)) PLAYING in
  let r := async_media_play_pause s in
  commands (emitted r) = [if playing then PAUSE else PLAY] /\
  (outcome r = Return tt \/ outcome r = Raise Py.PublishError) /\
  (outcome r = Return tt ->
   _player_state (ent (final r)) = (if playing then PAUSED else PLAYING) /\
   commands (emitted (async_media_play_pause (final r)))
   = [if playing then PLAY else PAUSE]).
Proof.
  cbv zeta.
  assert (Hstep : forall s', 
    let playing := MediaPlayerState_eqb (_player_state (ent s')) PLAYING in
    let r := async_media_play_pause s' in
    commands (emitted r) = [if playing then PAUSE else PLAY] /\
    (outcome r = Return tt \/ outcome r = Raise Py.PublishError) /\
    (outcome r = Return tt ->
     _player_state (ent (final r)) = (if playing then PAUSED else PLAYING))).
  { intros s'. cbv zeta. unfold async_media_play_pause, log.
    rewrite (bind_return (emit (Log DEBUG _)) _ s' tt eq_refl).
    cbn [final emitted outcome emit].
    rewrite (bind_return (getattr _player_state) _ s' _ eq_refl).
    cbn [final emitted outcome getattr app].
    pose proof (send_remote_command_outcome PAUSE s') as HoA.
    pose proof (send_remote_command_outcome PLAY s') as HoB.
    destruct (MediaPlayerState_eqb (_player_state (ent s')) PLAYING).
    - destruct (send_command_update_state_cases PAUSE PAUSED s')
        as (Hc & Hok & Hfail). cbv zeta in Hc, Hok, Hfail.
      split; [exact Hc|].
      destruct (failed (snd (world_await (world s') (AwaitPublish PAUSE)))).
      + destruct (Hfail eq_refl) as (Hr & _). rewrite Hr.
        split; [auto | discriminate].
      + destruct (Hok eq_refl) as (Hr & Hst & _). rewrite Hr. auto.
    - destruct (send_command_update_state_cases PLAY PLAYING s')
        as (Hc & Hok & Hfail). cbv zeta in Hc, Hok, Hfail.
      split; [exact Hc|].
      destruct (failed (snd (world_await (world s') (AwaitPublish PLAY)))).
      + destruct (Hfail eq_refl) as (Hr & _). rewrite Hr.
        split; [auto | discriminate].
      + destruct (Hok eq_refl) as (Hr & Hst & _). rewrite Hr. auto. }
  destruct (Hstep s) as (Hc & Ho & Hst).
  split; [exact Hc|]. split; [exact Ho|]. intros Hret.
  specialize (Hst Hret). split; [exact Hst|].
  destruct (Hstep (final (async_media_play_pause s))) as (Hc' & _ & _).
  rewrite Hc', Hst.
  now destruct (MediaPlayerState_eqb (_player_state (ent s)) PLAYING).
Qed.

End Commands.

Section LoopAndWorld.

Context {host : Host}.

(** A request made with something unknown leaves everything as it is. *)
Lemma set_volume_aborts_final (volume : R) (s : Sys) :
  _min_db (ent s) = None \/ _max_db (ent s) = None \/ _volume_db (ent s) = None ->
  final (async_set_volume_level volume s) = s.
Proof.
  intros H. destruct s as [e w]. cbn [ent] in H.
  unfold async_set_volume_level, bind, getattr, log, emit.
  cbn [final emitted outcome ent].
  destruct (_min_db e) as [lo|]; [|reflexivity].
  destruct (_max_db e) as [hi|]; [|reflexivity].
  cbn [final emitted outcome ent app].
  destruct (_volume_db e) as [v|]; [|reflexivity].
  destruct H as [H | [H | H]]; discriminate.
Qed.

(** *** What the request does to the entity *)

Section Frame.

(** A property of the entity that no delivered message destroys. *)
Variable P : Entity -> Prop.
Hypothesis deliver_keeps_P :
  forall msg s, P (ent s) -> P (ent (final (deliver msg s))).

Lemma deliver_all_frame (msgs : list ReceiveMessage) (s : Sys) :
  P (ent s) -> P (ent (final (deliver_all msgs s))).
Proof.
  revert s. induction msgs as [|msg rest IH]; intros s HP; [exact HP|].
  change (deliver_all (msg :: rest) s)
    with (bind (deliver msg) (fun _ => deliver_all rest) s).
  destruct (deliver_keeps msg s) as (_ & _ & _ & Ho).
  rewrite (bind_return _ _ _ tt Ho). cbn [final].
  apply IH, deliver_keeps_P, HP.
Qed.

Lemma suspend_frame (a : Await) (s : Sys) :
  P (ent s) -> P (ent (final (suspend a s))).
Proof.
  intros HP. unfold suspend.
  destruct (world_await (world s) a) as [w resumption].
  pose proof (deliver_all_frame (inbound resumption) (mkSys (ent s) w) HP) as H.
  now destruct (deliver_all (inbound resumption) (mkSys (ent s) w)).
Qed.

Lemma asyncio_sleep_frame (d : R) (s : Sys) :
  P (ent s) -> P (ent (final (asyncio_sleep d s))).
Proof.
  intros HP. unfold asyncio_sleep.
  rewrite (bind_return (emit (Sleep d)) _ s tt eq_refl).
  cbn [final emitted outcome emit].
  destruct (suspend_keeps (AwaitSleep d) s) as (_ & _ & Ho).
  rewrite (bind_return _ _ s _ Ho). cbn [final ret].
  now apply suspend_frame.
Qed.

Lemma send_remote_command_frame (c : Command) (s : Sys) :
  P (ent s) -> P (ent (final (_send_remote_command c s))).
Proof.
  intros HP. unfold _send_remote_command, async_publish, log.
  rewrite (bind_return (emit (Log DEBUG _)) _ s tt eq_refl).
  cbn [final emitted outcome emit].
  rewrite (bind_return (emit (Publish c)) _ s tt eq_refl).
  cbn [final emitted outcome emit].
  destruct (suspend_keeps (AwaitPublish c) s) as (_ & _ & Ho).
  rewrite (bind_return _ _ s _ Ho). cbn [final].
  pose proof (suspend_frame (AwaitPublish c) s HP) as H.
  now destruct (failed (snd (world_await (world s) (AwaitPublish c)))).
Qed.

Lemma feedback_pass_frame (target_db : R) (s : Sys) :
  P (ent s) -> P (ent (final (feedback_pass target_db s))).
Proof.
  intros HP. unfold feedback_pass.
  rewrite (bind_return (getattr _volume_db) _ s _ eq_refl).
  cbn [final emitted outcome getattr].
  destruct (_volume_db (ent s)) as [cur|].
  - destruct (Rle_dec (Rabs (target_db - cur)) tolerance); [exact HP|].
    assert (Hsend : forall c,
      P (ent (final (bind (_send_remote_command c)
                       (fun _ => bind (asyncio_sleep delay)
                                   (fun _ => ret Again)) s)))).
    { intros c.
      pose proof (send_remote_command_frame c s HP) as Hc.
      destruct (send_remote_command_keeps c s) as (_ & _ & [Ho | Ho]).
      - rewrite (bind_return _ _ s tt Ho). cbn [final].
        destruct (asyncio_sleep_keeps delay (final (_send_remote_command c s)))
          as (_ & _ & Ho').
        rewrite (bind_return _ _ _ tt Ho'). cbn [final ret].
        now apply asyncio_sleep_frame.
      - now rewrite (bind_raise _ _ s _ Ho). }
    destruct (Rgt_dec (target_db - cur) 0); apply Hsend.
  - destruct (asyncio_sleep_keeps delay s) as (_ & _ & Ho).
    rewrite (bind_return _ _ s tt Ho). cbn [final ret].
    now apply asyncio_sleep_frame.
Qed.

Lemma feedback_loop_frame (target_db : R) (budget attempts : nat) (s : Sys) :
  P (ent s) -> P (ent (final (feedback_loop target_db budget attempts s))).
Proof.
  revert attempts s. induction budget as [|budget IH]; intros attempts s HP.
  - unfold feedback_loop.
    rewrite (bind_return (getattr _volume_db) _ s _ eq_refl).
    cbn [final emitted outcome getattr].
    destruct (_volume_db (ent s)); cbn; exact HP.
  - change (feedback_loop target_db (S budget) attempts s)
      with (bind (feedback_pass target_db)
              (fun pass => match pass with
                           | Break => ret (attempts, Broke)
                           | Again => feedback_loop target_db budget (S attempts)
                           end) s).
    pose proof (feedback_pass_frame target_db s HP) as Hpass.
    destruct (outcome (feedback_pass target_db s)) as [[|] | ex] eqn:Ho.
    + now rewrite (bind_return _ _ s Break Ho).
    + rewrite (bind_return _ _ s Again Ho). cbn [final]. now apply IH.
    + now rewrite (bind_raise _ _ s ex Ho).
Qed.

Lemma set_volume_frame (volume : R) (s : Sys) :
  P (ent s) -> P (ent (final (async_set_volume_level volume s))).
Proof.
  intros HP.
  destruct (_min_db (ent s)) as [lo|] eqn:Hlo;
    [destruct (_max_db (ent s)) as [hi|] eqn:Hhi;
     [destruct (_volume_db (ent s)) as [v|] eqn:Hv|]|].
  - destruct (percent_to_db_returns (ent s) volume) as (target_db & Ht).
    assert (Hk : envelope_known (ent s)).
    { unfold envelope_known. rewrite Hv, Hlo, Hhi. repeat split; discriminate. }
    destruct (set_volume_runs_loop volume target_db s Hk Ht) as (Hfin & _).
    rewrite Hfin. now apply feedback_loop_frame.
  - rewrite set_volume_aborts_final; auto.
  - rewrite set_volume_aborts_final; auto.
  - rewrite set_volume_aborts_final; auto.
Qed.

End Frame.


(** X13: the request, the commands and the bus change the entity only
    through the callbacks.  Whatever property of the entity survives the
    delivery of every single message also survives any batch of
    messages, a relative or skip command, and a whole set-volume
    request with its up to 50 passes. *)
Theorem entity_changes_only_through_messages (P : Entity -> Prop) (s : Sys) :
  (forall msg s', P (ent s') -> P (ent (final (deliver msg s')))) ->
  P (ent s) ->
  (forall msgs, P (ent (final (deliver_all msgs s)))) /\
  (forall c, P (ent (final (_send_remote_command c s)))) /\
  (forall volume, P (ent (final (async_set_volume_level volume s)))).
Proof.
  intros Hkeep HP. split; [|split].
  - intros msgs. now apply deliver_all_frame.
  - intros c. now apply send_remote_command_frame.
  - intros volume. now apply set_volume_frame.
Qed.

(** No message makes a known envelope unknown. *)
Lemma deliver_envelope_known (msg : ReceiveMessage) (s : Sys) :
  envelope_known (ent s) -> envelope_known (ent (final (deliver msg s))).
Proof.
  intros Hk. destruct msg as [t p].
  assert (Hvol : t = SsncPvol \/ t = VolumeFallback ->
                 envelope_known (ent (final (deliver (mkMessage t p) s)))).
  { intros Ht. destruct (deliver_volume t p s Ht) as (Hfin & _). rewrite Hfin.
    destruct s as [e w].
    destruct (payload_text p) as [report|] eqn:Htext.
    - destruct (le_lt_dec 4 (List.length (fields report))) as [Hlen | Hlen].
      + destruct (four_fields _ Hlen) as (a & b & c & d & rest & Hf).
        rewrite (volume_updated_run t p report a b c d rest e w Htext Hf).
        destruct Hk as (Hv & Hlo & Hhi). cbn [ent] in Hv, Hlo, Hhi.
        destruct (float_of_str b); [|cbn; repeat split; assumption].
        destruct (float_of_str c);
          [|cbn; repeat split; [discriminate | assumption..]].
        destruct (float_of_str d);
          cbn; repeat split; try discriminate; assumption.
      + now rewrite (volume_updated_short t p report _ Htext Hlen).
    - destruct p as [txt | bs]; [discriminate|].
      now rewrite volume_updated_undecodable. }
  destruct t as [top | | ]; [|now apply Hvol; left | now apply Hvol; right].
  destruct (deliver_top_level top p s) as (Henv & _).
  unfold envelope in Henv. injection Henv as Hv Hlo Hhi.
  unfold envelope_known. now rewrite Hv, Hlo, Hhi.
Qed.

(** X14: once the envelope is known it stays known, and with it the
    displayed level: no batch of messages, no command and no set-volume
    request brings [volume_level] back to [None]. *)
Theorem envelope_stays_known (s : Sys) :
  envelope_known (ent s) ->
  volume_level (ent s) <> inr None /\
  (forall msgs, volume_level (ent (final (deliver_all msgs s))) <> inr None) /\
  (forall c, volume_level (ent (final (_send_remote_command c s))) <> inr None) /\
  (forall c target,
     volume_level (ent (final (_send_command_update_state c target s))) <> inr None) /\
  (forall volume,
     volume_level (ent (final (async_set_volume_level volume s))) <> inr None).
Proof.
  intros Hk.
  assert (Hlevel : forall e, envelope_known e -> volume_level e <> inr None).
  { intros e (Hv & Hlo & Hhi). unfold volume_level.
    destruct (_volume_db e), (_min_db e), (_max_db e);
      try contradiction.
    destruct (_tapered_db_to_percent e (Some r)); discriminate. }
  split; [now apply Hlevel|]. split; [|split; [|split]].
  - intros msgs. apply Hlevel.
    now apply (deliver_all_frame envelope_known deliver_envelope_known).
  - intros c. apply Hlevel.
    now apply (send_remote_command_frame envelope_known deliver_envelope_known).
  - intros c target. apply Hlevel.
    pose proof (send_remote_command_frame envelope_known deliver_envelope_known
                  c s Hk) as Hsent.
    unfold _send_command_update_state.
    destruct (send_remote_command_keeps c s) as (_ & _ & [Ho | Ho]).
    + rewrite (bind_return _ _ s tt Ho). cbn [final].
      destruct (final (_send_remote_command c s)) as [e w].
      rewrite set_state_run. cbv zeta. cbn [final ent] in *.
      destruct Hsent as (Hv & Hlo & Hhi).
      destruct target; unfold envelope_known; cbn; auto.
    + now rewrite (bind_raise _ _ s _ Ho).
  - intros volume. apply Hlevel.
    now apply (set_volume_frame envelope_known deliver_envelope_known).
Qed.



End LoopAndWorld.

Section Receivers.

Context {host : Host}.

(** *** A receiver that does not answer *)

Section Unanswered.

Hypothesis nothing_arrives :
  forall w a, inbound (snd (world_await w a)) = [] /\
              failed (snd (world_await w a)) = false.

Lemma unanswered_sleep (d : R) (s : Sys) :
  ent (final (asyncio_sleep d s)) = ent s /\
  emitted (asyncio_sleep d s) = [Sleep d] /\
  outcome (asyncio_sleep d s) = Return tt.
Proof.
  destruct (nothing_arrives (world s) (AwaitSleep d)) as (Hin & _).
  destruct (suspend_nothing_arrives _ _ Hin) as (Hent & Hem).
  destruct (suspend_keeps (AwaitSleep d) s) as (_ & _ & Ho).
  unfold asyncio_sleep.
  rewrite (bind_return (emit (Sleep d)) _ s tt eq_refl).
  cbn [final emitted outcome emit].
  rewrite (bind_return _ _ s _ Ho). cbn [final emitted outcome ret].
  rewrite Hem. auto.
Qed.

Lemma unanswered_command (c : Command) (s : Sys) :
  ent (final (_send_remote_command c s)) = ent s /\
  emitted (_send_remote_command c s)
  = [Log DEBUG "Sending '%s' command"; Publish c] /\
  outcome (_send_remote_command c s) = Return tt.
Proof.
  destruct (nothing_arrives (world s) (AwaitPublish c)) as (Hin & Hok).
  destruct (send_remote_command_nothing_arrives c s Hin) as (Hent & Hem).
  pose proof (send_remote_command_outcome c s) as Ho. rewrite Hok in Ho.
  auto.
Qed.

Lemma unanswered_pass_run (target_db current_db : R) (s : Sys) :
  _volume_db (ent s) = Some current_db ->
  Rabs (target_db - current_db) > tolerance ->
  ent (final (feedback_pass target_db s)) = ent s /\
  emitted (feedback_pass target_db s)
  = Example.unanswered_pass (command_towards target_db current_db) /\
  outcome (feedback_pass target_db s) = Return Again.
Proof.
  intros Hv Hout.
  rewrite (feedback_pass_step_run target_db current_db s Hv Hout).
  destruct (unanswered_command (command_towards target_db current_db) s)
    as (Hent & Hem & Ho).
  rewrite (bind_return _ _ s tt Ho). cbn [final emitted outcome].
  destruct (unanswered_sleep delay
              (final (_send_remote_command
                        (command_towards target_db current_db) s)))
    as (Hent' & Hem' & Ho').
  rewrite (bind_return _ _ _ tt Ho'). cbn [final emitted outcome ret].
  rewrite Hent', Hent, Hem, Hem', app_nil_r. auto.
Qed.

Lemma unanswered_loop (target_db current_db : R) (budget attempts : nat)
  (s : Sys) :
  _volume_db (ent s) = Some current_db ->
  Rabs (target_db - current_db) > tolerance ->
  let l := feedback_loop target_db budget attempts s in
  ent (final l) = ent s /\
  emitted l
  = (List.concat (repeat (Example.unanswered_pass
                            (command_towards target_db current_db)) budget)
     ++ [exhausted_warning])%list /\
  outcome l = Return ((budget + attempts)%nat, Exhausted).
Proof.
  intros Hv Hout. revert attempts s Hv.
  induction budget as [|budget IH]; intros attempts s Hv; cbv zeta.
  - unfold feedback_loop.
    rewrite (bind_return (getattr _volume_db) _ s _ eq_refl).
    cbn [final emitted outcome getattr]. rewrite Hv. cbn. auto.
  - destruct (unanswered_pass_run target_db current_db s Hv Hout)
      as (Hent & Hem & Ho).
    rewrite (feedback_loop_again _ _ _ _ Ho). cbn [final emitted outcome].
    assert (Hv' : _volume_db (ent (final (feedback_pass target_db s)))
                  = Some current_db) by now rewrite Hent.
    destruct (IH (S attempts) _ Hv') as (Hent' & Hem' & Ho').
    rewrite Hent', Hent, Hem, Hem', Ho'.
    cbn [repeat List.concat]. rewrite <- app_assoc, Nat.add_succ_r. auto.
Qed.

Lemma commands_of_unanswered (c : Command) (n : nat) :
  commands (List.concat (repeat (Example.unanswered_pass c) n)) = repeat c n.
Proof.
  induction n as [|n IH]; [reflexivity|].
  cbn [repeat List.concat]. rewrite commands_app, IH. reflexivity.
Qed.

Lemma snapshots_of_unanswered (c : Command) (n : nat) :
  snapshots (List.concat (repeat (Example.unanswered_pass c) n)) = [].
Proof.
  induction n as [|n IH]; [reflexivity|].
  cbn [repeat List.concat]. cbn. exact IH.
Qed.

Lemma snapshots_app (a b : list Event) :
  snapshots (a ++ b) = (snapshots a ++ snapshots b)%list.
Proof.
  induction a as [|ev a IH]; [reflexivity|].
  destruct ev; cbn; now rewrite IH.
Qed.

(** X16: a receiver that never answers.  While no message arrives and no
    publish fails, a request that starts more than 0.5 dB from its
    target sends the same command 50 times, one per pass, then logs the
    warning and returns normally; the entity is as before and nothing
    was written to the host. *)
Theorem unanswered_request_gives_up
  (volume target_db current_db : R) (s : Sys) :
  envelope_known (ent s) ->
  _volume_db (ent s) = Some current_db ->
  _tapered_percent_to_db (ent s) volume = inr target_db ->
  Rabs (target_db - current_db) > tolerance ->
  let r := async_set_volume_level volume s in
  commands (emitted r) = repeat (command_towards target_db current_db) 50 /\
  outcome r = Return tt /\
  ent (final r) = ent s /\
  snapshots (emitted r) = [] /\
  exists evs, emitted r = (evs ++ [exhausted_warning])%list.
Proof.
  intros Hk Hv Ht Hout. cbv zeta.
  destruct (set_volume_runs_loop volume target_db s Hk Ht) as (Hfin & Hem & Ho).
  destruct (unanswered_loop target_db current_db max_attempts 0 s Hv Hout)
    as (Hent & Hem' & Ho').
  rewrite Hfin, Hem, Ho, Ho', Hent, Hem'.
  split; [|split; [reflexivity|split; [reflexivity|split]]].
  - cbn [commands start_debug]. rewrite commands_app, commands_of_unanswered.
    cbn [commands exhausted_warning]. now rewrite app_nil_r.
  - cbn [snapshots start_debug]. rewrite snapshots_app, snapshots_of_unanswered.
    reflexivity.
  - eexists (start_debug :: _). reflexivity.
Qed.

End Unanswered.

(** *** A receiver that follows *)

Section Following.

Variable target_db : R.
Variable step : R.

(** The states the receiver can be in. *)
Variable I : Sys -> Prop.

(** Each command is answered before the next pass: the publish goes
    through and the report that arrives brings the volume at least one
    step closer to the target. *)
Hypothesis receiver_follows :
  forall s cur,
    I s ->
    _volume_db (ent s) = Some cur ->
    Rabs (target_db - cur) > tolerance ->
    let pass := feedback_pass target_db s in
    outcome pass = Return Again /\
    I (final pass) /\
    exists cur',
      _volume_db (ent (final pass)) = Some cur' /\
      Rabs (target_db - cur') <= Rabs (target_db - cur) - step.

Lemma following_loop (n budget attempts : nat) (s : Sys) (cur : R) :
  I s ->
  _volume_db (ent s) = Some cur ->
  Rabs (target_db - cur) <= tolerance + INR n * step ->
  (n < budget)%nat ->
  let l := feedback_loop target_db budget attempts s in
  exists k cur',
    (k <= n)%nat /\
    outcome l = Return ((attempts + k)%nat, Broke) /\
    List.length (commands (emitted l)) = k /\
    _volume_db (ent (final l)) = Some cur' /\
    Rabs (target_db - cur') <= tolerance.
Proof.
  revert budget attempts s cur.
  induction n as [|n IH]; intros budget attempts s cur HI Hv Hdist Hbudget;
    cbv zeta; (destruct budget as [|budget]; [lia|]).
  - assert (Hin : Rabs (target_db - cur) <= tolerance) by (cbn in Hdist; lra).
    exists 0%nat, cur.
    change (feedback_loop target_db (S budget) attempts s)
      with (bind (feedback_pass target_db)
              (fun pass => match pass with
                           | Break => ret (attempts, Broke)
                           | Again => feedback_loop target_db budget (S attempts)
                           end) s).
    unfold bind. rewrite (feedback_pass_reached _ _ _ Hv Hin).
    cbn. rewrite Nat.add_0_r. auto.
  - destruct (Rle_dec (Rabs (target_db - cur)) tolerance) as [Hin | Hout].
    + exists 0%nat, cur.
      change (feedback_loop target_db (S budget) attempts s)
        with (bind (feedback_pass target_db)
                (fun pass => match pass with
                             | Break => ret (attempts, Broke)
                             | Again => feedback_loop target_db budget (S attempts)
                             end) s).
      unfold bind. rewrite (feedback_pass_reached _ _ _ Hv Hin).
      cbn. rewrite Nat.add_0_r. repeat split; auto. lia.
    + apply Rnot_le_gt in Hout.
      destruct (receiver_follows s cur HI Hv Hout) as (Ho & HI' & cur' & Hv' & Hcloser).
      destruct (feedback_pass_step _ _ _ Hv Hout) as (Hc & _ & _).
      rewrite (feedback_loop_again _ _ _ _ Ho). cbn [final emitted outcome].
      assert (Hdist' : Rabs (target_db - cur') <= tolerance + INR n * step).
      { rewrite S_INR in Hdist. lra. }
      destruct (IH budget (S attempts) _ cur' HI' Hv' Hdist' ltac:(lia))
        as (k & cur'' & Hk & Hok & Hlen & Hv'' & Hin'').
      exists (S k), cur''. rewrite Hok, commands_app, Hc, Hv''.
      cbn [app List.length]. rewrite Hlen.
      repeat split; auto; try lia. f_equal. f_equal. lia.
Qed.

(** X17: a receiver that follows is reached.  If every command is
    answered by a report that brings the volume at least [step] closer
    to the target, and the distance at the start is at most
    [0.5 + n * step] with [n < 50], then the request returns normally
    after at most [n] commands, with the volume within 0.5 dB of the
    target. *)
Theorem set_volume_reaches_a_following_receiver
  (volume : R) (n : nat) (s : Sys) (cur : R) :
  envelope_known (ent s) ->
  _tapered_percent_to_db (ent s) volume = inr target_db ->
  I s ->
  _volume_db (ent s) = Some cur ->
  Rabs (target_db - cur) <= tolerance + INR n * step ->
  (n < 50)%nat ->
  let r := async_set_volume_level volume s in
  exists k cur',
    (k <= n)%nat /\
    outcome r = Return tt /\
    List.length (commands (emitted r)) = k /\
    _volume_db (ent (final r)) = Some cur' /\
    Rabs (target_db - cur') <= tolerance.
Proof.
  intros Hk Ht HI Hv Hdist Hn. cbv zeta.
  destruct (set_volume_runs_loop volume target_db s Hk Ht) as (Hfin & Hem & Ho).
  destruct (following_loop n max_attempts 0 s cur HI Hv Hdist Hn)
    as (k & cur' & Hkn & Hok & Hlen & Hv' & Hin).
  exists k, cur'. rewrite Hfin, Hem, Ho, Hok. cbn [commands start_debug].
  auto.
Qed.

End Following.

End Receivers.

(** ** Accessors *)

Section AccessorFacts.

Context {host : Host}.
Variable md5_hexdigest : list byte -> string.

(** X18: the image accessors after an artwork message.  A non-empty
    [bytes] payload is served as the image with the type image/jpeg and
    its hash is the MD5 digest of the payload; an empty payload is
    stored as well, but then both accessors report that there is no
    image.  Neither accessor changes the entity or writes state. *)
Theorem image_accessors_after_artwork (t : Topic) (b : list byte) (s : Sys) :
  let s' := final (artwork_updated (mkMessage t (PBytes b)) s) in
  let h := media_image_hash md5_hexdigest s' in
  let g := async_get_media_image s' in
  _media_image (ent s') = Some (PBytes b) /\
  final h = s' /\ final g = s' /\
  snapshots (emitted h) = [] /\ snapshots (emitted g) = [] /\
  (b <> [] ->
   outcome h = Return (Some (md5_hexdigest b)) /\
   outcome g = Return (Some (PBytes b), Some "image/jpeg")) /\
  (b = [] ->
   outcome h = Return None /\ outcome g = Return (None, None)).
Proof.
  destruct s as [e w]. cbv zeta. rewrite artwork_updated_bytes_run.
  cbv zeta. cbn [final]. destruct b as [|x rest].
  - repeat (split; [reflexivity|]). split.
    + intros Hne. contradiction.
    + intros _. split; reflexivity.
  - repeat (split; [reflexivity|]). split.
    + intros _. split; reflexivity.
    + intros Heq. discriminate.
Qed.

(** X19: an idle player shows nothing.  After an active-end message,
    from whatever state, the accessors report the state idle, no title,
    no artist, no album, no image hash and no image. *)
Theorem idle_player_shows_nothing (p : Payload) (s : Sys) :
  let s' := final (deliver (mkMessage (TopLevel ACTIVE_END) p) s) in
  outcome (state s') = Return IDLE /\
  outcome (media_title s') = Return None /\
  outcome (media_artist s') = Return None /\
  outcome (media_album_name s') = Return None /\
  outcome (media_image_hash md5_hexdigest s') = Return None /\
  outcome (async_get_media_image s') = Return (None, None).
Proof.
  destruct s as [e w]. cbv zeta. repeat split; reflexivity.
Qed.

End AccessorFacts.

(** ** Names *)

Section Names.

Lemma append_same_prefix (a b c : string) : a ++ b = a ++ c -> b = c.
Proof.
  induction a as [|ch a IH]; cbn; intros H; [exact H|].
  injection H as H. now apply IH.
Qed.

(** X20: names derived from the base topic.  Different base topics give
    different unique ids, and for every base topic the primary and the
    fallback volume topic are two different names. *)
Theorem names_are_distinct (a b : string) :
  (unique_id a = unique_id b -> a = b) /\
  NoDup (volume_topic_names a).
Proof.
  split.
  - unfold unique_id. apply append_same_prefix.
  - unfold volume_topic_names. constructor; [|constructor; [|constructor]].
    + intros [H | []]. apply append_same_prefix in H. discriminate.
    + intros [].
Qed.

End Names.

(** ** The life of the subscriptions *)

Section LifecycleFacts.

Context {host : Host} {bus : Bus}.

(** The handles the bus has in use. *)
Variable active : BusState -> list Handle.
Variable Handle_eq_dec : forall a b : Handle, {a = b} + {a <> b}.

(** A subscription that is granted comes with a handle that is not in
    use, and puts it in use. *)
Hypothesis subscribe_adds :
  forall b t encoding b' h,
    async_subscribe b t encoding = Some (b', h) ->
    ~ In h (active b) /\ active b' = (active b ++ [h])%list.

(** Calling a handle takes it out of use. *)
Hypothesis unsubscribe_removes :
  forall b h, active (unsubscribe b h) = remove Handle_eq_dec h (active b).

Lemma subscribe_each_acquires
  (wanted : list (Topic * option string * string)) (c : Connected) :
  let r := subscribe_each wanted c in
  let c' := fst (fst r) in
  exists acquired,
    _subscriptions c' = (_subscriptions c ++ acquired)%list /\
    active (bus_state c') = (active (bus_state c) ++ acquired)%list /\
    NoDup acquired /\
    (forall h, In h acquired -> ~ In h (active (bus_state c))) /\
    (List.length acquired <= List.length wanted)%nat /\
    (snd r = true -> List.length acquired = List.length wanted).
Proof.
  revert c. induction wanted as [|[[t encoding] line] rest IH]; intros c; cbv zeta.
  - exists []. cbn. rewrite !app_nil_r. repeat split; auto. constructor.
  - cbn [subscribe_each].
    destruct (async_subscribe (bus_state c) t encoding) as [[b h]|] eqn:Hsub.
    + destruct (subscribe_adds _ _ _ _ _ Hsub) as (Hfresh & Hact).
      specialize (IH (mkConnected b (_subscriptions c ++ [h])%list)).
      cbv zeta in IH.
      destruct (subscribe_each rest (mkConnected b (_subscriptions c ++ [h])%list))
        as [[c' evs] ok].
      cbn [fst snd bus_state _subscriptions] in IH |- *.
      destruct IH as (acquired & Hsubs & Hactive & Hnd & Hnew & Hlen & Hall).
      exists (h :: acquired). rewrite Hact in Hactive, Hnew.
      split; [rewrite Hsubs, <- app_assoc; reflexivity|].
      split; [rewrite Hactive, <- app_assoc; reflexivity|].
      split.
      { constructor; [|exact Hnd]. intros Hin.
        apply (Hnew h Hin). apply in_or_app. right. now left. }
      split.
      { intros h' [<- | Hin]; [exact Hfresh|].
        intros Hin'. apply (Hnew h' Hin). apply in_or_app. now left. }
      split; [cbn [List.length]; lia|].
      intros Hok. cbn [List.length]. now rewrite (Hall Hok).
    + exists []. cbn [fst snd List.length]. rewrite !app_nil_r.
      split; [reflexivity|]. split; [reflexivity|].
      split; [constructor|]. split; [intros h []|].
      split; [lia | discriminate].
Qed.

Lemma release_all (kept acquired : list Handle) (b : BusState) :
  active b = (kept ++ acquired)%list ->
  NoDup acquired ->
  (forall h, In h acquired -> ~ In h kept) ->
  active (fold_left unsubscribe acquired b) = kept.
Proof.
  revert b. induction acquired as [|h rest IH]; intros b Hact Hnd Hnew.
  - cbn. now rewrite app_nil_r in Hact.
  - cbn [fold_left]. apply IH.
    + rewrite unsubscribe_removes, Hact, remove_app.
      rewrite (notin_remove Handle_eq_dec kept h) by (apply Hnew; now left).
      cbn [remove]. destruct (Handle_eq_dec h h) as [_ | Hne]; [|contradiction].
      rewrite (notin_remove Handle_eq_dec rest h); [reflexivity|].
      now inversion Hnd.
    + now inversion Hnd.
    + intros h' Hin. apply Hnew. now right.
Qed.

(** X21: every subscription made is released.  Starting with an empty
    [_subscriptions], whether the setup subscribes to all eleven topics
    or stops at a request that raises, the handles obtained so far are
    recorded, and the teardown takes exactly them out of use: after it
    the bus has the handles in use that it had before the setup.  The
    topics asked for are those of the dispatch table, in its order. *)
Theorem subscriptions_are_released (c : Connected) :
  _subscriptions c = [] ->
  let setup := async_added_to_hass c in
  let c' := fst (fst setup) in
  let c'' := fst (async_will_remove_from_hass c') in
  active (bus_state c') = (active (bus_state c) ++ _subscriptions c')%list /\
  active (bus_state c'') = active (bus_state c) /\
  (List.length (_subscriptions c') <= 11)%nat /\
  (snd setup = true -> List.length (_subscriptions c') = 11%nat) /\
  map (fun r => fst (fst r)) requested = map fst subscriptions.
Proof.
  intros Hempty. cbv zeta.
  destruct (subscribe_each_acquires requested c)
    as (acquired & Hsubs & Hactive & Hnd & Hnew & Hlen & Hall).
  unfold async_added_to_hass, _subscribe_to_topics, async_will_remove_from_hass.
  cbn [fst bus_state].
  rewrite Hempty in Hsubs. cbn [app] in Hsubs. rewrite Hsubs.
  split; [exact Hactive|]. split; [|split; [|split]].
  - now apply release_all.
  - exact Hlen.
  - exact Hall.
  - reflexivity.
Qed.

End LifecycleFacts.

(** ** More properties on concrete hosts *)

Section MoreScenarios.

Import Example Doubles.

#[local] Existing Instance scripted_host.

Local Abbreviation scripted e w := (@mkSys scripted_host e (w : Script)).


(** X8 at one half. *)
Lemma percent_db_percent_roundtrip_witness :
  exists target,
    _tapered_percent_to_db (entity_at (-15)) (1 / 2) = inr target /\
    _tapered_db_to_percent (entity_at (-15)) (Some target) = inr (1 / 2).
Proof.
  assert (Hp : 0 < 1 / 2) by lra.
  destruct (percent_db_percent_roundtrip (entity_at (-15)) 0 (1 / 2) eq_refl Hp)
    as (target & Ht & _ & Hback & _).
  exists target. split; [exact Ht|]. apply Hback. lra.
Defined.


(** X22 on the initial state, at -15 dB and at 3 dB above the maximum. *)
Lemma volume_level_within_float_range_witness :
  volume_level init = inr None /\
  volume_level (entity_at (-15))
  = inr (Some (clamp (Rpower 10 ((-15 - 0) / 20)) 0 1)) /\
  volume_level (entity_at 3) = inr (Some 1).
Proof.
  split; [|split].
  - apply (proj1 (volume_level_within_float_range init)). left. reflexivity.
  - apply (proj1 (proj2 (volume_level_within_float_range (entity_at (-15))))
             (-15) (-30) 0); [reflexivity | reflexivity | reflexivity | lra].
  - apply (proj1 (proj2 (volume_level_within_float_range (entity_at 3)))
             3 (-30) 0);
      [reflexivity | reflexivity | reflexivity | lra | lra].
Defined.

Lemma entity_at_known (v : R) : envelope_known (entity_at v).
Proof. unfold envelope_known. cbn. repeat split; discriminate. Qed.

(** X13 with the property that the envelope is known. *)
Lemma entity_changes_only_through_messages_witness :
  envelope_known
    (ent (final (async_set_volume_level 1
                   (scripted (entity_at (-2)) two_steps_up)))).
Proof.
  destruct (entity_changes_only_through_messages (host := scripted_host)
              envelope_known (scripted (entity_at (-2)) two_steps_up)
              deliver_envelope_known (entity_at_known (-2)))
    as (_ & _ & Hrequest).
  apply Hrequest.
Defined.

(** X14 on the receiver of the specification's scenario. *)
Lemma envelope_stays_known_witness :
  volume_level
    (ent (final (async_set_volume_level 1
                   (scripted (entity_at (-2)) two_steps_up)))) <> inr None.
Proof.
  destruct (envelope_stays_known (host := scripted_host)
              (scripted (entity_at (-2)) two_steps_up) (entity_at_known (-2)))
    as (_ & _ & _ & _ & Hrequest).
  apply Hrequest.
Defined.


(** X16 on the host in which nothing arrives. *)
Lemma unanswered_request_gives_up_witness :
  commands
    (emitted (async_set_volume_level 1 (@mkSys deaf_host (entity_at (-2)) tt)))
  = repeat VOLUME_UP 50.
Proof.
  assert (Hdeaf : forall (w : @World deaf_host) a,
            inbound (snd (@world_await deaf_host w a)) = [] /\
            failed (snd (@world_await deaf_host w a)) = false)
    by (intros w a; split; reflexivity).
  assert (Hout : Rabs (0 - -2) > tolerance) by (apply outside_tolerance; lra).
  destruct (unanswered_request_gives_up (host := deaf_host) Hdeaf 1 0 (-2)
              (@mkSys deaf_host (entity_at (-2)) tt)
              (entity_at_known (-2)) eq_refl (target_full_volume (-2)) Hout)
    as (Hcommands & _).
  rewrite Hcommands. rewrite towards_up by lra. reflexivity.
Defined.

(** The three states of the scenario in which the receiver follows. *)
Lemma two_steps_up_follows (s : @Sys scripted_host) (cur : R) :
  s = scripted (entity_at (-2)) two_steps_up \/
  s = scripted (entity_at (-1)) [[]; [pvol "0,0.0,-30.0,0.0"]] \/
  s = scripted (entity_at 0) [] ->
  _volume_db (ent s) = Some cur ->
  Rabs (0 - cur) > tolerance ->
  let pass := feedback_pass 0 s in
  outcome pass = Return Again /\
  (final pass = scripted (entity_at (-2)) two_steps_up \/
   final pass = scripted (entity_at (-1)) [[]; [pvol "0,0.0,-30.0,0.0"]] \/
   final pass = scripted (entity_at 0) []) /\
  exists cur',
    _volume_db (ent (final pass)) = Some cur' /\
    Rabs (0 - cur') <= Rabs (0 - cur) - 1.
Proof.
  intros [-> | [-> | ->]] Hv Hout; cbn in Hv; injection Hv as <-; cbv zeta.
  - unfold two_steps_up.
    rewrite (scripted_pass 0 (-2) (entity_at (-2)) "0,-1.0,-30.0,0.0"
               "0" "-1.0" "-30.0" "0.0" [] (-1) (-30) 0
               [[]; [pvol "0,0.0,-30.0,0.0"]]
               eq_refl Hout eq_refl float_m1_0 float_m30_0 float_0_0).
    cbn [final outcome]. split; [reflexivity|].
    split; [right; left; reflexivity|].
    exists (-1). split; [reflexivity|].
    rewrite !Rabs_right by lra. lra.
  - rewrite (scripted_pass 0 (-1) (entity_at (-1)) "0,0.0,-30.0,0.0"
               "0" "0.0" "-30.0" "0.0" [] 0 (-30) 0 []
               eq_refl Hout eq_refl float_0_0 float_m30_0 float_0_0).
    cbn [final outcome]. split; [reflexivity|].
    split; [right; right; reflexivity|].
    exists 0. split; [reflexivity|].
    rewrite !Rabs_right by lra. lra.
  - exfalso. unfold tolerance in Hout.
    rewrite Rminus_diag, Rabs_R0 in Hout. lra.
Qed.

(** X17 on the receiver of the specification's scenario: the volume is
    2 dB below the target and each report is 1 dB higher. *)
Lemma set_volume_reaches_a_following_receiver_witness :
  exists k cur',
    (k <= 2)%nat /\
    outcome (async_set_volume_level 1 (scripted (entity_at (-2)) two_steps_up))
    = Return tt /\
    List.length
      (commands
         (emitted (async_set_volume_level 1
                     (scripted (entity_at (-2)) two_steps_up)))) = k /\
    _volume_db
      (ent (final (async_set_volume_level 1
                     (scripted (entity_at (-2)) two_steps_up)))) = Some cur' /\
    Rabs (0 - cur') <= tolerance.
Proof.
  assert (Hdist : Rabs (0 - -2) <= tolerance + INR 2 * 1).
  { unfold tolerance. rewrite Rabs_right by lra. cbn. lra. }
  assert (Hn : (2 < 50)%nat) by lia.
  exact (set_volume_reaches_a_following_receiver (host := scripted_host) 0 1
           (fun s => s = scripted (entity_at (-2)) two_steps_up \/
                     s = scripted (entity_at (-1)) [[]; [pvol "0,0.0,-30.0,0.0"]] \/
                     s = scripted (entity_at 0) [])
           two_steps_up_follows 1 2
           (scripted (entity_at (-2)) two_steps_up) (-2)
           (entity_at_known (-2)) (target_full_volume (-2))
           (or_introl eq_refl) eq_refl Hdist Hn).
Defined.

(** A counting bus grants handles that are not in use. *)
Lemma counting_bus_adds (limit : nat) (b : list nat) (t : Topic)
  (encoding : option string) (b' : list nat) (h : nat) :
  @async_subscribe (counting_bus limit) b t encoding = Some (b', h) ->
  ~ In h b /\ b' = (b ++ [h])%list.
Proof.
  unfold async_subscribe, counting_bus.
  destruct (List.length b <? limit)%nat; [|discriminate].
  intros H. injection H as <- <-. split; [|reflexivity].
  intros Hin.
  pose proof (proj1 (list_max_le b (list_max b)) (le_n _)) as Hall.
  rewrite Forall_forall in Hall. specialize (Hall _ Hin). lia.
Qed.

(** X21 on a bus that grants everything and on a bus that refuses the
    fourth subscription: both are empty again after the teardown. *)
Lemma subscriptions_are_released_witness :
  @bus_state (counting_bus 100)
    (fst (async_will_remove_from_hass
            (fst (fst (async_added_to_hass
                         (@mkConnected (counting_bus 100) [] [])))))) = [] /\
  @bus_state (counting_bus 3)
    (fst (async_will_remove_from_hass
            (fst (fst (async_added_to_hass
                         (@mkConnected (counting_bus 3) [] [])))))) = [].
Proof.
  split.
  - destruct (subscriptions_are_released (bus := counting_bus 100)
                (fun b => b) Nat.eq_dec (counting_bus_adds 100)
                (fun b h => eq_refl)
                (@mkConnected (counting_bus 100) [] []) eq_refl)
      as (_ & Hback & _).
    exact Hback.
  - destruct (subscriptions_are_released (bus := counting_bus 3)
                (fun b => b) Nat.eq_dec (counting_bus_adds 3)
                (fun b h => eq_refl)
                (@mkConnected (counting_bus 3) [] []) eq_refl)
      as (_ & Hback & _).
    exact Hback.
Defined.

(** On the bus that refuses the fourth subscription the setup fails with
    three handles recorded. *)
Example setup_stops_at_the_refusal :
  let setup := async_added_to_hass (@mkConnected (counting_bus 3) [] []) in
  snd setup = false /\
  _subscriptions (fst (fst setup)) = [1; 2; 3]%nat /\
  bus_state (fst (fst setup)) = [1; 2; 3]%nat.
Proof. cbv zeta. repeat split; reflexivity. Qed.

End MoreScenarios.
